(** * src-server: the authenticated archive endpoint

    A verification development for the two variants of the [GET /src]
    handler of zxdong262/src-server:

    - [src/app.js]: the transient variant, one archive per request in the
      temporary directory, named with a fresh [nanoid];
    - [src/server.js]: the persistent variant, one archive per revision,
      stored in the working copy and reused when it exists.

    The handlers are [async] functions that talk to the outside through
    [child_process.exec], [fs/promises], [process.env], [nanoid] and the
    console.  They are embedded as finite trees of calls ([Prog]); a
    [Host] gives the outside its behaviour, [run] executes one request
    and [interleave] executes two requests under a schedule. *)

From Stdlib Require Import String Ascii List Bool Arith Lia.
From stdpp Require Import gmap strings list.
Import ListNotations.

Local Open Scope string_scope.

(** ** JavaScript strings

    A JavaScript string is a sequence of UTF-16 code units.  It is
    modelled as a Rocq [string]; each character stands for one code unit
    in the range 0-255. *)

Module JS.

(** [String.prototype.startsWith]. *)
Fixpoint startsWith (s prefix : string) {struct prefix} : bool :=
  match prefix, s with
  | EmptyString, _ => true
  | String a prefix', String b s' => Ascii.eqb a b && startsWith s' prefix'
  | String _ _, EmptyString => false
  end.

(** [String.prototype.includes]: [needle] occurs somewhere in [hay]. *)
Fixpoint includes (hay needle : string) : bool :=
  startsWith hay needle ||
  match hay with
  | EmptyString => false
  | String _ rest => includes rest needle
  end.

(** White space and line terminators, as [String.prototype.trim] sees
    them, among the code units below 256: TAB, LF, VT, FF, CR, SP and
    NBSP. *)
Definition is_white_space (c : ascii) : bool :=
  match c with
  | "009" | "010" | "011" | "012" | "013" | " " | "160" => true
  | _ => false
  end%char.

Fixpoint trimStart (s : string) : string :=
  match s with
  | EmptyString => EmptyString
  | String c rest => if is_white_space c then trimStart rest else s
  end.

Fixpoint trimEnd (s : string) : string :=
  match s with
  | EmptyString => EmptyString
  | String c rest =>
      match trimEnd rest with
      | EmptyString => if is_white_space c then EmptyString
                       else String c EmptyString
      | rest' => String c rest'
      end
  end.

(** [String.prototype.trim]. *)
Definition trim (s : string) : string := trimEnd (trimStart s).

Fixpoint take (n : nat) (s : string) : string :=
  match n, s with
  | S n', String c rest => String c (take n' rest)
  | _, _ => EmptyString
  end.

Fixpoint drop (n : nat) (s : string) : string :=
  match n, s with
  | S n', String _ rest => drop n' rest
  | _, _ => s
  end.

(** [String.prototype.substring(start, end)]: both indices are clamped
    to the length, and swapped when [start > end]. *)
Definition substring (s : string) (start end_ : nat) : string :=
  let len := String.length s in
  let a := Nat.min start len in
  let b := Nat.min end_ len in
  let lo := Nat.min a b in
  let hi := Nat.max a b in
  take (hi - lo) (drop lo s).

(** A value of type string-or-[undefined]: an absent header, an unset
    environment variable. *)
Definition value := option string.

(** Interpolation [${v}] in a template literal. *)
Definition interp (v : value) : string :=
  match v with
  | Some s => s
  | None => "undefined"
  end.

(** Truthiness of a string-or-[undefined]: [undefined] and the empty
    string are falsy. *)
Definition truthy (v : value) : bool :=
  match v with
  | Some EmptyString | None => false
  | Some _ => true
  end.

(** [v !== s] for a string [s]. *)
Definition strict_neq (v : value) (s : string) : bool :=
  match v with
  | Some s' => negb (String.eqb s' s)
  | None => true
  end.

End JS.

(** ** Node's [path] module (POSIX flavour)

    [path.dirname], [path.basename] and [path.join] belong to Node, not
    to the repository; they are modelled on lists of characters after
    their documented behaviour on POSIX paths. *)

Module Path.

Definition is_sep (c : ascii) : bool := Ascii.eqb c "/"%char.

Fixpoint drop_while (f : ascii -> bool) (l : list ascii) : list ascii :=
  match l with
  | [] => []
  | c :: l' => if f c then drop_while f l' else l
  end.

Fixpoint take_while (f : ascii -> bool) (l : list ascii) : list ascii :=
  match l with
  | [] => []
  | c :: l' => if f c then c :: take_while f l' else []
  end.

Definition non_sep (c : ascii) : bool := negb (is_sep c).

(** [path.basename(p)]: the last portion of [p], trailing separators
    ignored. *)
Definition basename (p : string) : string :=
  let r := drop_while is_sep (rev (list_ascii_of_string p)) in
  string_of_list_ascii (rev (take_while non_sep r)).

(** [path.dirname(p)]: everything before the last portion of [p]; the
    scan for the separator stops before index 0. *)
Definition dirname (p : string) : string :=
  match list_ascii_of_string p with
  | [] => "."
  | c0 :: cs =>
      let hasRoot := is_sep c0 in
      let r := drop_while non_sep (drop_while is_sep (rev cs)) in
      match r with
      | [] => if hasRoot then "/" else "."
      | _ :: before =>
          if hasRoot && Nat.eqb (List.length before) 0 then "//"
          else string_of_list_ascii (c0 :: rev before)
      end
  end.

(** Splitting at separators. *)
Fixpoint split_acc (cur : list ascii) (l : list ascii) : list (list ascii) :=
  match l with
  | [] => [rev cur]
  | c :: l' => if is_sep c then rev cur :: split_acc [] l'
               else split_acc (c :: cur) l'
  end.

Definition split (l : list ascii) : list (list ascii) := split_acc [] l.

Definition is_dot (seg : list ascii) : bool :=
  match seg with ["."%char] => true | _ => false end.

Definition is_dotdot (seg : list ascii) : bool :=
  match seg with ["."%char; "."%char] => true | _ => false end.

(** The segments kept so far are held last-first in [stack]. *)
Fixpoint resolve (allowAboveRoot : bool) (stack : list (list ascii))
    (segs : list (list ascii)) : list (list ascii) :=
  match segs with
  | [] => rev stack
  | seg :: segs' =>
      match seg with
      | [] => resolve allowAboveRoot stack segs'
      | _ =>
          if is_dot seg then resolve allowAboveRoot stack segs'
          else if is_dotdot seg then
            match stack with
            | top :: below =>
                if is_dotdot top
                then resolve allowAboveRoot (seg :: stack) segs'
                else resolve allowAboveRoot below segs'
            | [] =>
                if allowAboveRoot
                then resolve allowAboveRoot [seg] segs'
                else resolve allowAboveRoot [] segs'
            end
          else resolve allowAboveRoot (seg :: stack) segs'
      end
  end.

Fixpoint unsplit (segs : list (list ascii)) : list ascii :=
  match segs with
  | [] => []
  | [seg] => seg
  | seg :: segs' => (seg ++ "/"%char :: unsplit segs')%list
  end.

(** [path.normalize(p)]. *)
Definition normalize (p : string) : string :=
  match list_ascii_of_string p with
  | [] => "."
  | c0 :: cs =>
      let isAbsolute := is_sep c0 in
      let trailingSeparator :=
        match rev (c0 :: cs) with
        | c :: _ => is_sep c
        | [] => false
        end in
      let body := unsplit (resolve (negb isAbsolute) [] (split (c0 :: cs))) in
      match body with
      | [] => if isAbsolute then "/"
              else if trailingSeparator then "./" else "."
      | _ =>
          let body' := if trailingSeparator then (body ++ ["/"%char])%list else body in
          string_of_list_ascii
            (if isAbsolute then "/"%char :: body' else body')
      end
  end.

(** [path.join(a, b)]: the non-empty arguments joined by a separator,
    then normalized. *)
Definition join (a b : string) : string :=
  match a, b with
  | EmptyString, EmptyString => "."
  | EmptyString, _ => normalize b
  | _, EmptyString => normalize a
  | _, _ => normalize (a ++ "/" ++ b)%string
  end.

End Path.

(** ** Calls to the outside, and programs over them *)

(** The value a rejected promise carries: the error of a failed command
    or file-system call, with its detail. *)
Definition Error := string.

(** What a handler does with [res]. *)
Inductive Response :=
| Send (status : nat) (body : string)   (* res.status(status).send(body) *)
| Download (path : string).             (* res.download(path) *)

(** A line written to the console. *)
Inductive LogLine :=
| Log (msg : string)                    (* console.log(msg) *)
| LogError (msg : string) (e : Error).  (* console.error(msg, e) *)

(** An [async] function body: it returns, throws, or makes a call and
    goes on with the reply.  [Exec] is [await execAsync(cmd)], which
    resolves with the command's standard output or rejects; [Access] and
    [Unlink] are [await fs.access(path)] and [await fs.unlink(path)],
    which resolve ([None]) or reject. *)
Inductive Prog (A : Type) : Type :=
| Ret (a : A)
| Throw (e : Error)
| Exec (cmd : string) (k : Error + string -> Prog A)
| Access (path : string) (k : option Error -> Prog A)
| Unlink (path : string) (k : option Error -> Prog A)
| Nanoid (k : string -> Prog A)
| GetEnv (key : string) (k : JS.value -> Prog A)
| Console (l : LogLine) (k : Prog A).

Arguments Ret {A} a.
Arguments Throw {A} e.
Arguments Exec {A} cmd k.
Arguments Access {A} path k.
Arguments Unlink {A} path k.
Arguments Nanoid {A} k.
Arguments GetEnv {A} key k.
Arguments Console {A} l k.

Fixpoint bind {A B : Type} (p : Prog A) (f : A -> Prog B) : Prog B :=
  match p with
  | Ret a => f a
  | Throw e => Throw e
  | Exec cmd k => Exec cmd (fun r => bind (k r) f)
  | Access path k => Access path (fun r => bind (k r) f)
  | Unlink path k => Unlink path (fun r => bind (k r) f)
  | Nanoid k => Nanoid (fun r => bind (k r) f)
  | GetEnv key k => GetEnv key (fun r => bind (k r) f)
  | Console l k => Console l (bind k f)
  end.

(** [try { p } catch (e) { h e }]. *)
Fixpoint try_catch {A : Type} (p : Prog A) (h : Error -> Prog A) : Prog A :=
  match p with
  | Ret a => Ret a
  | Throw e => h e
  | Exec cmd k => Exec cmd (fun r => try_catch (k r) h)
  | Access path k => Access path (fun r => try_catch (k r) h)
  | Unlink path k => Unlink path (fun r => try_catch (k r) h)
  | Nanoid k => Nanoid (fun r => try_catch (k r) h)
  | GetEnv key k => GetEnv key (fun r => try_catch (k r) h)
  | Console l k => Console l (try_catch k h)
  end.

Global Instance prog_ret : MRet Prog := fun A a => Ret a.
Global Instance prog_bind : MBind Prog := fun A B f p => bind p f.

(** An awaited promise that rejects throws at the [await]. *)
Definition settle {A : Type} (r : Error + A) : Prog A :=
  match r with
  | inl e => Throw e
  | inr a => Ret a
  end.

Definition settle_void (r : option Error) : Prog unit :=
  match r with
  | Some e => Throw e
  | None => Ret tt
  end.

(** [const { stdout } = await execAsync(cmd)]. *)
Definition execAsync (cmd : string) : Prog string := Exec cmd settle.

(** [await fs.access(path)] and [await fs.unlink(path)]. *)
Definition fs_access (path : string) : Prog unit := Access path settle_void.
Definition fs_unlink (path : string) : Prog unit := Unlink path settle_void.

Definition nanoid : Prog string := Nanoid Ret.
Definition process_env (key : string) : Prog JS.value := GetEnv key Ret.
Definition console_log (msg : string) : Prog unit := Console (Log msg) (Ret tt).
Definition console_error (msg : string) (e : Error) : Prog unit :=
  Console (LogError msg e) (Ret tt).

(** [if (c) { p }] as a statement. *)
Definition when (c : bool) (p : Prog unit) : Prog unit :=
  if c then p else Ret tt.

(** ** The outside

    The version-control tool, the archiver, the file system and the
    source of fresh identifiers are opaque: a [Host] fixes how each call
    answers in a state [Sys] of the outside and how it changes it. *)

Class Host := {
  Sys : Type;
  host_exec : string -> Sys -> (Error + string) * Sys;
  host_access : string -> Sys -> option Error;
  host_unlink : string -> Sys -> option Error * Sys;
  host_nanoid : Sys -> string * Sys
}.

(** A call with the reply it got. *)
Inductive Event :=
| EvExec (cmd : string) (r : Error + string)
| EvAccess (path : string) (r : option Error)
| EvUnlink (path : string) (r : option Error)
| EvNanoid (id : string)
| EvGetEnv (key : string) (v : JS.value)
| EvConsole (l : LogLine).

Section Execution.

Context `{H : Host}.

(** The process environment and the outside. *)
Record World := { env : gmap string string; sys : Sys }.

Record Outcome (A : Type) := {
  trace : list Event;       (* the calls made, in order *)
  final : World;
  result : Error + A        (* uncaught exception, or the value *)
}.
Arguments trace {A} _.
Arguments final {A} _.
Arguments result {A} _.

Definition emit {A : Type} (ev : Event) (o : Outcome A) : Outcome A :=
  {| trace := ev :: trace o; final := final o; result := result o |}.

Definition with_sys (w : World) (s : Sys) : World :=
  {| env := env w; sys := s |}.

(** One request, run to its end. *)
Fixpoint run {A : Type} (p : Prog A) (w : World) : Outcome A :=
  match p with
  | Ret a => {| trace := []; final := w; result := inr a |}
  | Throw e => {| trace := []; final := w; result := inl e |}
  | Exec cmd k =>
      let (r, s) := host_exec cmd (sys w) in
      emit (EvExec cmd r) (run (k r) (with_sys w s))
  | Access path k =>
      let r := host_access path (sys w) in
      emit (EvAccess path r) (run (k r) w)
  | Unlink path k =>
      let (r, s) := host_unlink path (sys w) in
      emit (EvUnlink path r) (run (k r) (with_sys w s))
  | Nanoid k =>
      let (id, s) := host_nanoid (sys w) in
      emit (EvNanoid id) (run (k id) (with_sys w s))
  | GetEnv key k =>
      let v := env w !! key in
      emit (EvGetEnv key v) (run (k v) w)
  | Console l k => emit (EvConsole l) (run k w)
  end.

(** One call of a request. *)
Definition step {A : Type} (p : Prog A) (w : World)
    : option (Event * Prog A * World) :=
  match p with
  | Ret _ | Throw _ => None
  | Exec cmd k =>
      let (r, s) := host_exec cmd (sys w) in
      Some (EvExec cmd r, k r, with_sys w s)
  | Access path k =>
      let r := host_access path (sys w) in
      Some (EvAccess path r, k r, w)
  | Unlink path k =>
      let (r, s) := host_unlink path (sys w) in
      Some (EvUnlink path r, k r, with_sys w s)
  | Nanoid k =>
      let (id, s) := host_nanoid (sys w) in
      Some (EvNanoid id, k id, with_sys w s)
  | GetEnv key k =>
      let v := env w !! key in
      Some (EvGetEnv key v, k v, w)
  | Console l k => Some (EvConsole l, k, w)
  end.

(** Two requests in flight.  The event loop resumes one of them at a
    time; [sched] says which ([false]: the first, [true]: the second)
    and each turn lets the chosen request make its next call, which
    takes effect at that moment.  A turn given to a request that is done
    does nothing.  Every order in which the event loop can let the calls
    of two requests take effect is a schedule. *)
Fixpoint interleave {A : Type} (sched : list bool) (p q : Prog A)
    (w : World) : list (bool * Event) * (Prog A * Prog A) * World :=
  match sched with
  | [] => ([], (p, q), w)
  | false :: sched' =>
      match step p w with
      | Some (ev, p', w') =>
          let '(t, pq, w'') := interleave sched' p' q w' in
          ((false, ev) :: t, pq, w'')
      | None => interleave sched' p q w
      end
  | true :: sched' =>
      match step q w with
      | Some (ev, q', w') =>
          let '(t, pq, w'') := interleave sched' p q' w' in
          ((true, ev) :: t, pq, w'')
      | None => interleave sched' p q w
      end
  end.

End Execution.

Arguments trace {H A} _.
Arguments final {H A} _.
Arguments result {H A} _.

(** ** The requests *)

(** [req.headers]: header names in lower case, to their values. *)
Record Request := { headers : gmap string string }.

(** [app.get('/health', ...)], the same in both variants. *)
Definition health (req : Request) : Prog Response := Ret (Send 200 "OK").

(** ** [src/app.js]: the transient variant *)

Module App.

(** What the module holds once loaded: [os.tmpdir()] and the three
    variables taken out of [process.env] at load time. *)
Record Consts := {
  tempFolder : string;
  BRANCH_NAME : string;
  SRC_FOLDER : string;
  TOKEN : string
}.

Definition requiredEnvVars : list string :=
  ["GIT_REPO_PATH"; "BRANCH_NAME"; "SRC_FOLDER"; "TOKEN"].

(** Loading the module: [None] is [process.exit(1)]. *)
Definition load (tmpdir : string) (env : gmap string string)
    : option Consts :=
  let missingEnvVars :=
    List.filter (fun key => negb (JS.truthy (env !! key))) requiredEnvVars in
  if Nat.ltb 0 (List.length missingEnvVars) then None
  else
    match env !! "BRANCH_NAME", env !! "SRC_FOLDER", env !! "TOKEN" with
    | Some b, Some s, Some t =>
        Some {| tempFolder := tmpdir; BRANCH_NAME := b;
                SRC_FOLDER := s; TOKEN := t |}
    | _, _, _ => None
    end.

(** [checkFileExists]: [fs.access(filePath).then(() => true).catch(() => false)]. *)
Definition checkFileExists (filePath : string) : Prog bool :=
  Access filePath (fun r => match r with
                            | None => Ret true
                            | Some _ => Ret false
                            end).

(** [app.get('/src', ...)]. *)
Definition src (m : Consts) (req : Request) : Prog Response :=
  let authHeader := headers req !! "auth" in
  if negb (JS.truthy authHeader) || JS.strict_neq authHeader (TOKEN m) then
    Ret (Send 401 "Unauthorized")
  else
    try_catch
      (repoPath ← process_env "GIT_REPO_PATH";
       execAsync ("git -C " ++ JS.interp repoPath ++ " fetch origin");;
       statusOutput ← execAsync ("git -C " ++ JS.interp repoPath ++ " status");
       let isUpToDate :=
         JS.includes statusOutput
           ("Your branch is up to date with 'origin/" ++ BRANCH_NAME m ++ "'") in
       when (negb isUpToDate)
         (console_log "Repo not in sync, pulling...";;
          execAsync ("git -C " ++ JS.interp repoPath ++ " pull origin "
                     ++ BRANCH_NAME m);;
          Ret tt);;
       hashOutput ← execAsync ("git -C " ++ JS.interp repoPath ++ " rev-parse HEAD");
       let gitHash := JS.substring (JS.trim hashOutput) 0 7 in
       id ← nanoid;
       let tarFileName := "src-" ++ gitHash ++ "-" ++ id ++ ".tar.gz" in
       let tarFilePath := Path.join (tempFolder m) tarFileName in
       exist ← checkFileExists tarFilePath;
       when exist (fs_unlink tarFilePath);;
       let parentFolder := Path.dirname (SRC_FOLDER m) in
       let baseFolder := Path.basename (SRC_FOLDER m) in
       execAsync ("tar -czf " ++ tarFilePath ++ " -C " ++ parentFolder
                  ++ " " ++ baseFolder);;
       Ret (Download tarFilePath))
      (fun error =>
         console_error "Error in /src route:" error;;
         Ret (Send 500 "Internal Server Error")).

End App.

(** ** [src/server.js]: the persistent variant *)

Module Server.

(** The four variables the module reads from [process.env] when it
    starts. *)
Record Consts := {
  GIT_REPO_PATH : string;
  BRANCH_NAME : string;
  SRC_FOLDER : string;
  TOKEN : string
}.

(** Starting the server: [None] is [process.exit(1)]. *)
Definition load (env : gmap string string) : option Consts :=
  let GIT_REPO_PATH := env !! "GIT_REPO_PATH" in
  let BRANCH_NAME := env !! "BRANCH_NAME" in
  let SRC_FOLDER := env !! "SRC_FOLDER" in
  let TOKEN := env !! "TOKEN" in
  if negb (JS.truthy GIT_REPO_PATH) || negb (JS.truthy BRANCH_NAME)
     || negb (JS.truthy SRC_FOLDER) || negb (JS.truthy TOKEN)
  then None
  else
    match GIT_REPO_PATH, BRANCH_NAME, SRC_FOLDER, TOKEN with
    | Some g, Some b, Some s, Some t =>
        Some {| GIT_REPO_PATH := g; BRANCH_NAME := b;
                SRC_FOLDER := s; TOKEN := t |}
    | _, _, _, _ => None
    end.

(** [app.get('/src', ...)]. *)
Definition src (m : Consts) (req : Request) : Prog Response :=
  let authHeader := headers req !! "auth" in
  if negb (JS.truthy authHeader) || JS.strict_neq authHeader (TOKEN m) then
    Ret (Send 401 "Unauthorized")
  else
    try_catch
      (execAsync ("git -C " ++ GIT_REPO_PATH m ++ " fetch origin");;
       statusOutput ← execAsync ("git -C " ++ GIT_REPO_PATH m ++ " status");
       let isUpToDate :=
         JS.includes statusOutput
           ("Your branch is up to date with 'origin/" ++ BRANCH_NAME m ++ "'") in
       when (negb isUpToDate)
         (console_log "Repo not in sync, pulling...";;
          execAsync ("git -C " ++ GIT_REPO_PATH m ++ " pull origin "
                     ++ BRANCH_NAME m);;
          Ret tt);;
       hashOutput ← execAsync ("git -C " ++ GIT_REPO_PATH m ++ " rev-parse HEAD");
       let gitHash := JS.substring (JS.trim hashOutput) 0 7 in
       let tarFileName := "src-" ++ gitHash ++ ".tar.gz" in
       let tarFilePath := Path.join (GIT_REPO_PATH m) tarFileName in
       try_catch
         (fs_access tarFilePath;;
          console_log "Tar file already exists, serving...")
         (fun _ =>
            console_log "Creating tar file...";;
            execAsync ("cd " ++ GIT_REPO_PATH m ++ " && tar -czf "
                       ++ tarFileName ++ " " ++ SRC_FOLDER m);;
            Ret tt);;
       Ret (Download tarFilePath))
      (fun error =>
         console_error "Error in /src route:" error;;
         Ret (Send 500 "Internal Server Error")).

End Server.

(** ** A scripted outside

    A small [Host] to run the handlers on: a table says how each command
    answers and which files it creates; the file system is the list of
    the paths that exist; fresh identifiers come from a list. *)

Module Sim.

Record Rule := {
  rule_cmd : string;
  rule_reply : Error + string;
  rule_creates : list string
}.

Record State := { files : list string; ids : list string }.

Definition exists_file (path : string) (s : State) : bool :=
  existsb (String.eqb path) (files s).

Definition exec (rules : list Rule) (cmd : string) (s : State)
    : (Error + string) * State :=
  match List.find (fun r => String.eqb (rule_cmd r) cmd) rules with
  | Some r =>
      (rule_reply r,
       {| files := (rule_creates r ++ files s)%list; ids := ids s |})
  | None => (inl ("Command failed: " ++ cmd), s)
  end.

Definition access (path : string) (s : State) : option Error :=
  if exists_file path s then None
  else Some ("ENOENT: no such file or directory, access '" ++ path ++ "'").

Definition unlink (path : string) (s : State) : option Error * State :=
  if exists_file path s then
    (None,
     {| files := List.filter (fun f => negb (String.eqb path f)) (files s);
        ids := ids s |})
  else
    (Some ("ENOENT: no such file or directory, unlink '" ++ path ++ "'"), s).

Definition fresh (s : State) : string * State :=
  match ids s with
  | id :: rest => (id, {| files := files s; ids := rest |})
  | [] => ("", s)
  end.

Definition host (rules : list Rule) : Host := {|
  Sys := State;
  host_exec := exec rules;
  host_access := access;
  host_unlink := unlink;
  host_nanoid := fresh
|}.

Definition world (rules : list Rule) (e : gmap string string)
    (fs : list string) (fresh_ids : list string) : @World (host rules) :=
  @Build_World (host rules) e {| files := fs; ids := fresh_ids |}.

(** A working copy at [/repo], on branch [main], up to date with its
    remote, whose head is [0a1b2c3d4e5f...]. *)
Definition status_up_to_date : string :=
  "On branch main" ++ String "010" "Your branch is up to date with 'origin/main'."
  ++ String "010" "nothing to commit, working tree clean" ++ String "010" "".

Definition head : string :=
  "0a1b2c3d4e5f60718293a4b5c6d7e8f901234567" ++ String "010" "".

Definition git_rules : list Rule := [
  {| rule_cmd := "git -C /repo fetch origin"; rule_reply := inr "";
     rule_creates := [] |};
  {| rule_cmd := "git -C /repo status"; rule_reply := inr status_up_to_date;
     rule_creates := [] |};
  {| rule_cmd := "git -C /repo pull origin main";
     rule_reply := inr "Already up to date."; rule_creates := [] |};
  {| rule_cmd := "git -C /repo rev-parse HEAD"; rule_reply := inr head;
     rule_creates := [] |}
].

Definition request (token : string) : Request :=
  {| headers := {[ "auth" := token ]} |}.

Definition anonymous : Request := {| headers := ∅ |}.

End Sim.

(** ** Vocabulary of the properties *)

(** A request that carries the configured secret.  The secret is never
    empty: both modules refuse to load without one ([app_load_token],
    [server_load_token]). *)
Definition authenticated (token : string) (req : Request) : Prop :=
  token ≠ "" ∧ headers req !! "auth" = Some token.

(** The command texts, by their role. *)
Module Cmd.

Definition fetch (repo : string) : string :=
  "git -C " ++ repo ++ " fetch origin".

Definition status (repo : string) : string :=
  "git -C " ++ repo ++ " status".

Definition pull (repo branch : string) : string :=
  "git -C " ++ repo ++ " pull origin " ++ branch.

Definition rev_parse (repo : string) : string :=
  "git -C " ++ repo ++ " rev-parse HEAD".

(** The phrase looked for in the status text. *)
Definition marker (branch : string) : string :=
  "Your branch is up to date with 'origin/" ++ branch ++ "'".

(** The archive build of [app.js]. *)
Definition tar_app (dest parent base : string) : string :=
  "tar -czf " ++ dest ++ " -C " ++ parent ++ " " ++ base.

(** The archive build of [server.js]. *)
Definition tar_server (repo name folder : string) : string :=
  "cd " ++ repo ++ " && tar -czf " ++ name ++ " " ++ folder.

End Cmd.

(** The commands a trace executed, in order. *)
Fixpoint commands (t : list Event) : list string :=
  match t with
  | [] => []
  | EvExec cmd _ :: t' => cmd :: commands t'
  | _ :: t' => commands t'
  end.

(** The revision of a [rev-parse] output, in the words of the
    specification: the first seven characters of the trimmed text. *)
Definition revision (hashOutput : string) : string :=
  JS.take 7 (JS.trim hashOutput).

(** The line the handlers log when they catch an error. *)
Definition logged (e : Error) : Event :=
  EvConsole (LogError "Error in /src route:" e).

Definition internal_error : Response := Send 500 "Internal Server Error".

(** The outside keeps its files from one state to another. *)
Definition same_files `{Host} (s1 s2 : Sys) : Prop :=
  forall path, host_access path s1 = host_access path s2.

(** The order of the synchronisation calls in a trace [t] for a working
    copy [repo] on [branch]: the fetch comes first; once it resolves the
    status is asked; once that has answered with a text, the pull is one
    of the commands of the request exactly when the text lacks the
    marker, and it is then the next command. *)
Definition sync_protocol (repo branch : string) (t : list Event) : Prop :=
  exists r1 t1,
    t = EvExec (Cmd.fetch repo) r1 :: t1 ∧
    forall o1, r1 = inr o1 ->
      exists r2 t2,
        t1 = EvExec (Cmd.status repo) r2 :: t2 ∧
        forall statusOutput, r2 = inr statusOutput ->
          (In (Cmd.pull repo branch) (commands t) <->
           JS.includes statusOutput (Cmd.marker branch) = false)
          ∧
          (JS.includes statusOutput (Cmd.marker branch) = false ->
           exists r3 t3,
             t2 = EvConsole (Log "Repo not in sync, pulling...")
                  :: EvExec (Cmd.pull repo branch) r3 :: t3).

(** The state of the outside after a list of commands. *)
Definition replay `{Host} (cmds : list string) (s : Sys) : Sys :=
  fold_left (fun s cmd => snd (host_exec cmd s)) cmds s.

(** The two command lines that build an archive, by what they hand to
    the archiver. *)
Module Tar.

(** An archive build: the directory the operand is resolved in, the
    operand, and the file written. *)
Record Build := { root : string; operand : string; dest : string }.

(** [tar -czf dest -C root operand]. *)
Definition via_C (b : Build) : string :=
  Cmd.tar_app (dest b) (root b) (operand b).

(** [cd root && tar -czf dest operand]. *)
Definition via_cd (b : Build) : string :=
  Cmd.tar_server (root b) (dest b) (operand b).

End Tar.

(** A command line that builds an archive from the directory [parent],
    naming [base] alone, in either of the two forms. *)
Definition at_parent (parent base cmd : string) : Prop :=
  exists dest,
    cmd = Tar.via_C {| Tar.root := parent; Tar.operand := base;
                       Tar.dest := dest |}
    ∨ cmd = Tar.via_cd {| Tar.root := parent; Tar.operand := base;
                          Tar.dest := dest |}.


(** ** Two requests in flight *)

(** [Steps p t p']: the request [p] can make the calls [t], with some
    replies, and be left with [p'] to do. *)
Inductive Steps {A : Type} : Prog A -> list Event -> Prog A -> Prop :=
| steps_here p : Steps p [] p
| steps_exec cmd k r t p' :
    Steps (k r) t p' -> Steps (Exec cmd k) (EvExec cmd r :: t) p'
| steps_access path k r t p' :
    Steps (k r) t p' -> Steps (Access path k) (EvAccess path r :: t) p'
| steps_unlink path k r t p' :
    Steps (k r) t p' -> Steps (Unlink path k) (EvUnlink path r :: t) p'
| steps_nanoid k id t p' :
    Steps (k id) t p' -> Steps (Nanoid k) (EvNanoid id :: t) p'
| steps_getenv key k v t p' :
    Steps (k v) t p' -> Steps (GetEnv key k) (EvGetEnv key v :: t) p'
| steps_console l k t p' :
    Steps k t p' -> Steps (Console l k) (EvConsole l :: t) p'.

(** The calls of one of the two requests, out of a common trace. *)
Fixpoint lane (who : bool) (t : list (bool * Event)) : list Event :=
  match t with
  | [] => []
  | (b, ev) :: t' => if Bool.eqb b who then ev :: lane who t' else lane who t'
  end.

(** The archive build of [server.js] is its only command that starts
    with [cd]; the others start with [git]. *)
Definition is_build (cmd : string) : bool := JS.startsWith cmd "cd ".

(** How many archive builds a trace started. *)
Fixpoint builds (t : list Event) : nat :=
  match t with
  | [] => 0
  | EvExec cmd _ :: t' => if is_build cmd then S (builds t') else builds t'
  | _ :: t' => builds t'
  end.

(** The archive build of [app.js] is its only command that starts with
    [tar]. *)
Definition is_tar (cmd : string) : bool := JS.startsWith cmd "tar ".

Fixpoint tar_builds (t : list Event) : nat :=
  match t with
  | [] => 0
  | EvExec cmd _ :: t' => if is_tar cmd then S (tar_builds t') else tar_builds t'
  | _ :: t' => tar_builds t'
  end.

(** Two first requests for a new revision, racing: the working copy of
    [Sim] with no archive yet, and a schedule in which both requests
    have made their existence check before either builds. *)
Module Race.

Definition consts : Server.Consts := {|
  Server.GIT_REPO_PATH := "/repo";
  Server.BRANCH_NAME := "main";
  Server.SRC_FOLDER := "src";
  Server.TOKEN := "secret"
|}.

Definition rules : list Sim.Rule :=
  (Sim.git_rules ++
   [ {| Sim.rule_cmd := "cd /repo && tar -czf src-0a1b2c3.tar.gz src";
        Sim.rule_reply := inr "";
        Sim.rule_creates := ["/repo/src-0a1b2c3.tar.gz"] |} ])%list.

Definition start : @World (Sim.host rules) := Sim.world rules ∅ [] [].

Definition first : Prog Response := Server.src consts (Sim.request "secret").
Definition second : Prog Response := Server.src consts (Sim.request "secret").

(** The two requests advance in step through fetch, status, rev-parse
    and existence check; then each writes its console line and
    builds. *)
Definition sched : list bool :=
  [false; true; false; true; false; true; false; true;
   false; false; true; true].

End Race.

(** ** Concrete runs *)

Module Demo.

(** [app.js] loaded with SRC_FOLDER [/srv/app]. *)
Definition env0 : gmap string string :=
  {[ "GIT_REPO_PATH" := "/repo"; "BRANCH_NAME" := "main";
     "SRC_FOLDER" := "/srv/app"; "TOKEN" := "secret" ]}.

Definition app : App.Consts := {|
  App.tempFolder := "/tmp";
  App.BRANCH_NAME := "main";
  App.SRC_FOLDER := "/srv/app";
  App.TOKEN := "secret"
|}.

Definition app_rules : list Sim.Rule :=
  (Sim.git_rules ++
   [ {| Sim.rule_cmd := "tar -czf /tmp/src-0a1b2c3-V1StGXR8.tar.gz -C /srv app";
        Sim.rule_reply := inr "";
        Sim.rule_creates := ["/tmp/src-0a1b2c3-V1StGXR8.tar.gz"] |} ])%list.

Definition app_world : @World (Sim.host app_rules) :=
  Sim.world app_rules env0 [] ["V1StGXR8"].

(** [server.js] with SRC_FOLDER [src]. *)
Definition server : Server.Consts := Race.consts.

(** The working copy once a first request has built the archive. *)
Definition built : @World (Sim.host Race.rules) :=
  final (run (H := Sim.host Race.rules) Race.first Race.start).

(** An archiver that fails. *)
Definition no_tar : @World (Sim.host Sim.git_rules) :=
  Sim.world Sim.git_rules env0 [] ["V1StGXR8"].

(** [server.js] with a folder two levels down. *)
Definition nested : Server.Consts := {|
  Server.GIT_REPO_PATH := "/repo";
  Server.BRANCH_NAME := "main";
  Server.SRC_FOLDER := "packages/app";
  Server.TOKEN := "secret"
|}.

Definition nested_rules : list Sim.Rule :=
  (Sim.git_rules ++
   [ {| Sim.rule_cmd := "cd /repo && tar -czf src-0a1b2c3.tar.gz packages/app";
        Sim.rule_reply := inr "";
        Sim.rule_creates := ["/repo/src-0a1b2c3.tar.gz"] |} ])%list.

Definition nested_world : @World (Sim.host nested_rules) :=
  Sim.world nested_rules ∅ [] [].

Definition nested_build : Tar.Build := {|
  Tar.root := "/repo";
  Tar.operand := "packages/app";
  Tar.dest := "src-0a1b2c3.tar.gz"
|}.

(** A working copy that is not there. *)
Definition lost : Server.Consts := {|
  Server.GIT_REPO_PATH := "/nonexistent/path";
  Server.BRANCH_NAME := "main";
  Server.SRC_FOLDER := "src";
  Server.TOKEN := "secret"
|}.

Definition lost_world : @World (Sim.host Sim.git_rules) :=
  Sim.world Sim.git_rules
    (<[ "GIT_REPO_PATH" := "/nonexistent/path" ]> env0) [] ["V1StGXR8"].

Definition good : Request := Sim.request "secret".
Definition bad : Request := Sim.request "wrong-token".

Definition fetched : Event := EvExec "git -C /repo fetch origin" (inr "").
Definition status_seen : Event :=
  EvExec "git -C /repo status" (inr Sim.status_up_to_date).
Definition resolved : Event :=
  EvExec "git -C /repo rev-parse HEAD" (inr Sim.head).
Definition missing (path : string) : Event :=
  EvAccess path
    (Some ("ENOENT: no such file or directory, access '" ++ path ++ "'")).

End Demo.

(** The specification's claim on the build, for the commands a request
    ran: every archive build is rooted at the parent directory of
    [folder], be it read as it is written or inside the working copy
    [repo], and names only the base name of [folder]. *)
Definition archives_base_name_only `{Host} (repo folder : string)
    (o : Outcome Response) : Prop :=
  forall cmd,
    In cmd (commands (trace o)) ->
    is_build cmd || is_tar cmd = true ->
    at_parent (Path.dirname folder) (Path.basename folder) cmd
    ∨ at_parent (Path.join repo (Path.dirname folder))
        (Path.basename folder) cmd.

(** The specification's claim on concurrent first requests: once both
    are done, one build was started. *)
Definition exactly_one_build `{Host} (p q : Prog Response) (w : World) : Prop :=
  forall sched t r1 r2 w',
    interleave sched p q w = (t, (Ret r1, Ret r2), w') ->
    builds (map snd t) = 1.

(** The specification's claim on the command texts: SRC_FOLDER appears
    as it is in the archive build. *)
Definition folder_verbatim (folder : string) (t : list Event) : Prop :=
  exists cmd, In cmd (commands t) ∧ is_tar cmd = true
              ∧ JS.includes cmd folder = true.

(** ** Starting up *)

Module Startup.

(** [process.env.PORT || 3000]: the text of the variable, or the number
    3000. *)
Inductive Port :=
| PortText (s : string)
| PortNumber (n : nat).

Definition port (env : gmap string string) : Port :=
  if JS.truthy (env !! "PORT") then PortText (JS.interp (env !! "PORT"))
  else PortNumber 3000.

(** [process.env.HOST || '127.0.0.1']. *)
Definition host (env : gmap string string) : string :=
  if JS.truthy (env !! "HOST") then JS.interp (env !! "HOST")
  else "127.0.0.1".

(** [app.listen(port, host, ...)]. *)
Record Listening := { on_port : Port; on_host : string }.

(** How a module ends its start: [process.exit(code)] after a line on
    the console, or loaded with its constants, listening or not. *)
Inductive Started (Consts : Type) :=
| Exited (code : nat) (message : string)
| Running (m : Consts) (listening : option Listening).

Arguments Exited {Consts} code message.
Arguments Running {Consts} m listening.

(** [requiredEnvVars.filter((key) => !process.env[key])] of [app.js]. *)
Definition missingEnvVars (env : gmap string string) : list string :=
  List.filter (fun key => negb (JS.truthy (env !! key))) App.requiredEnvVars.

(** [app.js] imported by the [server.js] that starts it: the module
    exits when a variable is missing, and listens unless NODE_ENV is
    [test]. *)
Definition app_main (tmpdir : string) (env : gmap string string)
    : Started App.Consts :=
  match App.load tmpdir env with
  | None =>
      Exited 1 ("Missing required environment variables: "
                ++ String.concat ", " (missingEnvVars env))
  | Some m =>
      Running m
        (if JS.strict_neq (env !! "NODE_ENV") "test"
         then Some {| on_port := port env; on_host := host env |}
         else None)
  end.

(** The persistent [server.js]. *)
Definition server_main (env : gmap string string) : Started Server.Consts :=
  match Server.load env with
  | None =>
      Exited 1 "Missing GIT_REPO_PATH, BRANCH_NAME, SRC_FOLDER, or TOKEN in environment variables"
  | Some m =>
      Running m (Some {| on_port := port env; on_host := host env |})
  end.

End Startup.

(** ** More vocabulary *)

(** The three answers of [GET /src]. *)
Definition src_answer (r : Response) : Prop :=
  r = Send 401 "Unauthorized"
  ∨ r = Send 500 "Internal Server Error"
  ∨ exists path, r = Download path.

(** The git commands are the commands that start with [git]. *)
Definition is_git (cmd : string) : bool := JS.startsWith cmd "git ".

(** The git commands of a trace, with their replies. *)
Fixpoint git_events (t : list Event) : list Event :=
  match t with
  | [] => []
  | EvExec cmd r :: t' =>
      if is_git cmd then EvExec cmd r :: git_events t' else git_events t'
  | _ :: t' => git_events t'
  end.

(** Every command of a trace resolved. *)
Definition all_resolved (t : list Event) : Prop :=
  forall cmd r, In (EvExec cmd r) t -> exists out, r = inr out.

(** No removal of a trace was rejected. *)
Definition all_removed (t : list Event) : Prop :=
  forall path r, In (EvUnlink path r) t -> r = None.

(** What the console tells of a run: an error line is the last call of
    the request, says "Error in /src route:", and carries the error of
    the command or of the removal made just before it; and the answer is
    500 "Internal Server Error" exactly when the run ends with it. *)
Definition errors_are_logged_last (t : list Event) (r : Error + Response)
    : Prop :=
  (forall pre msg e post,
      t = (pre ++ EvConsole (LogError msg e) :: post)%list ->
      post = [] ∧ msg = "Error in /src route:"
      ∧ ((exists pre' cmd, pre = (pre' ++ [EvExec cmd (inl e)])%list)
         ∨ (exists pre' path, pre = (pre' ++ [EvUnlink path (Some e)])%list)))
  ∧
  (r = inr (Send 500 "Internal Server Error")
   <-> exists pre e, t = (pre ++ [logged e])%list).

(** The paths a trace looked at or removed. *)
Fixpoint fs_paths (t : list Event) : list string :=
  match t with
  | [] => []
  | EvAccess path _ :: t' => path :: fs_paths t'
  | EvUnlink path _ :: t' => path :: fs_paths t'
  | _ :: t' => fs_paths t'
  end.

(** Characters that are all white space, and none. *)
Fixpoint all_white (s : string) : bool :=
  match s with
  | EmptyString => true
  | String c rest => JS.is_white_space c && all_white rest
  end.

Fixpoint no_white (s : string) : bool :=
  match s with
  | EmptyString => true
  | String c rest => negb (JS.is_white_space c) && no_white rest
  end.

(** A character that is not the path separator. *)
Definition plain (c : ascii) : Prop := Path.is_sep c = false.

(** What precedes the last portion: nothing, or something that ends
    with a separator. *)
Definition closed (pre : list ascii) : Prop :=
  pre = [] ∨ exists p, pre = (p ++ ["/"%char])%list.

(** ** More concrete runs *)

Module Cases.

(** [app.js] with SRC_FOLDER a plain name. *)
Definition plain_app : App.Consts := {|
  App.tempFolder := "/tmp";
  App.BRANCH_NAME := "main";
  App.SRC_FOLDER := "src";
  App.TOKEN := "secret"
|}.

Definition plain_rules : list Sim.Rule :=
  (Sim.git_rules ++
   [ {| Sim.rule_cmd := "tar -czf /tmp/src-0a1b2c3-V1StGXR8.tar.gz -C . src";
        Sim.rule_reply := inr "";
        Sim.rule_creates := ["/tmp/src-0a1b2c3-V1StGXR8.tar.gz"] |} ])%list.

Definition plain_world : @World (Sim.host plain_rules) :=
  Sim.world plain_rules Demo.env0 [] ["V1StGXR8"].

(** The archive path of [Demo.app], and a temporary folder that holds
    a file of that name already. *)
Definition archive : string := "/tmp/src-0a1b2c3-V1StGXR8.tar.gz".

Definition stale : @World (Sim.host Demo.app_rules) :=
  Sim.world Demo.app_rules Demo.env0 [archive] ["V1StGXR8"].

(** What a request of [app.js] does before its existence check. *)
Definition synchronised : list Event :=
  [EvGetEnv "GIT_REPO_PATH" (Some "/repo"); Demo.fetched;
   Demo.status_seen; Demo.resolved; EvNanoid "V1StGXR8"].

Definition app_build : Event :=
  EvExec "tar -czf /tmp/src-0a1b2c3-V1StGXR8.tar.gz -C /srv app" (inr "").

Definition server_build : Event :=
  EvExec "cd /repo && tar -czf src-0a1b2c3.tar.gz src" (inr "").

(** The environment of the test suite. *)
Definition test_env : gmap string string :=
  <[ "NODE_ENV" := "test" ]> Demo.env0.

End Cases.

(** String functions and command recognisers are kept folded when a
    run is simplified. *)
#[global] Arguments revision : simpl never.
#[global] Arguments JS.substring : simpl never.
#[global] Arguments JS.trim : simpl never.
#[global] Arguments Path.join : simpl never.
#[global] Arguments Path.dirname : simpl never.
#[global] Arguments Path.basename : simpl never.
#[global] Arguments is_build : simpl never.
#[global] Arguments is_tar : simpl never.
#[global] Arguments is_git : simpl never.
#[global] Arguments JS.is_white_space : simpl never.

(** * Properties *)

(** ** The library functions on documented inputs *)

Example basename_doc : Path.basename "/foo/bar/baz/asdf/quux.html" = "quux.html".
Proof. reflexivity. Qed.

Example dirname_doc : Path.dirname "/foo/bar/baz/asdf/quux" = "/foo/bar/baz/asdf".
Proof. reflexivity. Qed.

Example join_doc :
  Path.join "/foo" "bar/baz/asdf/quux/.." = "/foo/bar/baz/asdf".
Proof. reflexivity. Qed.

(** ** Basic facts *)

Lemma auth_check_passes (token : string) (req : Request) :
  authenticated token req ->
  negb (JS.truthy (headers req !! "auth"))
  || JS.strict_neq (headers req !! "auth") token = false.
Proof.
  intros [Hne ->]. simpl. rewrite String.eqb_refl.
  destruct token; [congruence | reflexivity].
Qed.

Lemma auth_check_fails (token : string) (req : Request) :
  headers req !! "auth" ≠ Some token ->
  negb (JS.truthy (headers req !! "auth"))
  || JS.strict_neq (headers req !! "auth") token = true.
Proof.
  intros Hne. destruct (headers req !! "auth") as [s|]; [|reflexivity].
  simpl. destruct (String.eqb_spec s token) as [->|]; [congruence|].
  now rewrite orb_true_r.
Qed.

(** Both modules load only with a non-empty secret, and hold the values
    the environment had at that moment. *)
Lemma truthy_Some (v : JS.value) :
  JS.truthy v = true -> exists s, v = Some s ∧ s ≠ "".
Proof.
  destruct v as [[|c s]|]; simpl; try discriminate.
  intros _. eexists; split; [reflexivity | discriminate].
Qed.



(** Case analysis on the next reply of the outside. *)
Ltac next_reply :=
  match goal with
  | |- context [host_exec ?c ?s] =>
      let e := fresh "e" in let out := fresh "out" in
      let s' := fresh "s" in let E := fresh "Ex" in
      destruct (host_exec c s) as [[e|out] s'] eqn:E
  | |- context [host_access ?p ?s] =>
      let e := fresh "e" in let E := fresh "Ac" in
      destruct (host_access p s) as [e|] eqn:E
  | |- context [host_unlink ?p ?s] =>
      let e := fresh "e" in let s' := fresh "s" in let E := fresh "Un" in
      destruct (host_unlink p s) as [[e|] s'] eqn:E
  | |- context [host_nanoid ?s] =>
      let id := fresh "id" in let s' := fresh "s" in let E := fresh "Id" in
      destruct (host_nanoid s) as [id s'] eqn:E
  | |- context [JS.includes ?a ?b] =>
      let E := fresh "Mk" in destruct (JS.includes a b) eqn:E
  end; cbn.

Ltac enter_app Ha :=
  unfold App.src; rewrite (auth_check_passes _ _ Ha); cbn.

Ltac enter_server Ha :=
  unfold Server.src; rewrite (auth_check_passes _ _ Ha); cbn.

(** The handlers catch what they throw: every request gets an answer. *)
Lemma app_always_answers `{Host} (m : App.Consts) (req : Request) (w : World) :
  exists response, result (run (App.src m req) w) = inr response.
Proof.
  unfold App.src. destruct (negb _ || _); [eexists; reflexivity|]. cbn.
  repeat next_reply; eexists; reflexivity.
Qed.

Lemma server_always_answers `{Host} (m : Server.Consts) (req : Request)
    (w : World) :
  exists response, result (run (Server.src m req) w) = inr response.
Proof.
  unfold Server.src. destruct (negb _ || _); [eexists; reflexivity|]. cbn.
  repeat next_reply; eexists; reflexivity.
Qed.

(** ** Authentication *)

(** C1. A request to [GET /src] whose [auth] header is absent or differs
    from the configured TOKEN is answered 401 "Unauthorized" and makes no
    call at all: the trace is empty and the world is left as it was.
    This holds for both variants. *)
Theorem unauthorized_is_silent `{Host} (req : Request) (w : World) :
  (forall m : App.Consts,
      headers req !! "auth" ≠ Some (App.TOKEN m) ->
      run (App.src m req) w =
      {| trace := []; final := w; result := inr (Send 401 "Unauthorized") |})
  ∧
  (forall m : Server.Consts,
      headers req !! "auth" ≠ Some (Server.TOKEN m) ->
      run (Server.src m req) w =
      {| trace := []; final := w; result := inr (Send 401 "Unauthorized") |}).
Proof.
  split; intros m Hne.
  - unfold App.src. now rewrite (auth_check_fails _ _ Hne).
  - unfold Server.src. now rewrite (auth_check_fails _ _ Hne).
Qed.

(** ** Failures *)

(** Locating an event in a trace that is known call by call: [tac]
    closes the goal once the event is found. *)
Ltac locate Heq tac :=
  lazymatch type of Heq with
  | [] = (?pre ++ _ :: _)%list => destruct pre; discriminate Heq
  | _ :: _ = (?pre ++ _ :: _)%list =>
      let x := fresh "x" in
      destruct pre as [|x pre]; cbn in Heq;
      [ try discriminate Heq; inversion Heq; subst; clear Heq; tac
      | let Hhd := fresh "Hhd" in
        injection Heq as Hhd Heq; subst x; locate Heq tac ]
  end.

(** C8. When the fetch of an authenticated request fails (as it does
    against a working-copy path that is unreachable or not a
    repository), the answer is 500 "Internal Server Error", the error is
    logged, and the fetch is the only call the request makes to the
    outside: no existence check, no removal, no build.  The outside is
    left in the state the failed fetch left it in, so if that command
    created no file, no file was created. *)
Theorem fetch_failure_creates_nothing `{Host}
    (req : Request) (w : World) (e : Error) (s' : Sys) :
  (forall m : App.Consts,
      authenticated (App.TOKEN m) req ->
      let repoPath := env w !! "GIT_REPO_PATH" in
      host_exec (Cmd.fetch (JS.interp repoPath)) (sys w) = (inl e, s') ->
      run (App.src m req) w =
      {| trace := [EvGetEnv "GIT_REPO_PATH" repoPath;
                   EvExec (Cmd.fetch (JS.interp repoPath)) (inl e);
                   logged e];
         final := with_sys w s';
         result := inr internal_error |}
      ∧ (same_files s' (sys w) ->
         same_files (sys (final (run (App.src m req) w))) (sys w)))
  ∧
  (forall m : Server.Consts,
      authenticated (Server.TOKEN m) req ->
      host_exec (Cmd.fetch (Server.GIT_REPO_PATH m)) (sys w) = (inl e, s') ->
      run (Server.src m req) w =
      {| trace := [EvExec (Cmd.fetch (Server.GIT_REPO_PATH m)) (inl e);
                   logged e];
         final := with_sys w s';
         result := inr internal_error |}
      ∧ (same_files s' (sys w) ->
         same_files (sys (final (run (Server.src m req) w))) (sys w))).
Proof.
  split; intros m Ha.
  - intros repoPath Hf. unfold Cmd.fetch in Hf.
    assert (Hrun : run (App.src m req) w =
      {| trace := [EvGetEnv "GIT_REPO_PATH" repoPath;
                   EvExec (Cmd.fetch (JS.interp repoPath)) (inl e);
                   logged e];
         final := with_sys w s';
         result := inr internal_error |}).
    { enter_app Ha. fold repoPath. rewrite Hf. reflexivity. }
    split; [exact Hrun|]. now rewrite Hrun.
  - intros Hf. unfold Cmd.fetch in Hf.
    assert (Hrun : run (Server.src m req) w =
      {| trace := [EvExec (Cmd.fetch (Server.GIT_REPO_PATH m)) (inl e);
                   logged e];
         final := with_sys w s';
         result := inr internal_error |}).
    { enter_server Ha. rewrite Hf. reflexivity. }
    split; [exact Hrun|]. now rewrite Hrun.
Qed.

(** C5. In an authenticated request, a command that fails (fetch,
    status, pull, rev-parse or the archive build) ends the request: the
    only thing that follows it is the console line carrying the error,
    so no command is run again or run after it, and the answer is 500
    with the fixed body "Internal Server Error", whatever the error
    was. *)
Theorem command_failure_is_terminal `{Host} (req : Request) (w : World) :
  (forall m : App.Consts,
      authenticated (App.TOKEN m) req ->
      forall pre cmd e post,
        trace (run (App.src m req) w) = (pre ++ EvExec cmd (inl e) :: post)%list ->
        post = [logged e] ∧
        result (run (App.src m req) w) = inr (Send 500 "Internal Server Error"))
  ∧
  (forall m : Server.Consts,
      authenticated (Server.TOKEN m) req ->
      forall pre cmd e post,
        trace (run (Server.src m req) w) = (pre ++ EvExec cmd (inl e) :: post)%list ->
        post = [logged e] ∧
        result (run (Server.src m req) w) = inr (Send 500 "Internal Server Error")).
Proof.
  split; intros m Ha pre cmd err post.
  - enter_app Ha. repeat next_reply;
      intros Heq; locate Heq ltac:(split; reflexivity).
  - enter_server Ha. repeat next_reply;
      intros Heq; locate Heq ltac:(split; reflexivity).
Qed.

(** ** Command texts are told apart by their verbs *)

Lemma append_inj_l (a b c : string) : a ++ b = a ++ c -> b = c.
Proof.
  induction a as [|x a IH]; cbn; [auto|]. intros [= Heq]. auto.
Qed.

Lemma git_verb_inj (repo a b : string) :
  "git -C " ++ repo ++ a = "git -C " ++ repo ++ b -> a = b.
Proof.
  intros Heq. apply (append_inj_l "git -C ") in Heq.
  now apply append_inj_l in Heq.
Qed.

(** Two command texts of different roles are never equal. *)
Ltac cmd_absurd Heq :=
  exfalso;
  unfold Cmd.fetch, Cmd.status, Cmd.pull, Cmd.rev_parse,
    Cmd.tar_app, Cmd.tar_server in Heq;
  simpl in Heq;
  try discriminate Heq;
  try (injection Heq as Heq);
  do 3 (try apply append_inj_l in Heq);
  simpl in Heq; discriminate Heq.

(** ** Synchronisation *)

Ltac sync_cases :=
  repeat next_reply;
  (split; [split; [ intros Hin; cbn in Hin |  ] | ]);
  try discriminate; try reflexivity;
  try (intros _; eexists _, _; reflexivity);
  try (intros _; cbn; unfold Cmd.pull; tauto);
  repeat match goal with
         | Hin : _ ∨ _ |- _ => destruct Hin as [Hin|Hin]
         | Hin : False |- _ => destruct Hin
         | Hin : _ = Cmd.pull _ _ |- _ => cmd_absurd Hin
         end.

(** C4. An authenticated request first fetches from origin, then asks
    for the status, and pulls the configured branch if and only if the
    status text does not contain "Your branch is up to date with
    'origin/<BRANCH_NAME>'".  In [app.js] the working-copy path is read
    from the environment just before. *)
Theorem pull_iff_marker_absent `{Host} (req : Request) (w : World) :
  (forall m : App.Consts,
      authenticated (App.TOKEN m) req ->
      let repoPath := env w !! "GIT_REPO_PATH" in
      exists t,
        trace (run (App.src m req) w) = EvGetEnv "GIT_REPO_PATH" repoPath :: t ∧
        sync_protocol (JS.interp repoPath) (App.BRANCH_NAME m) t)
  ∧
  (forall m : Server.Consts,
      authenticated (Server.TOKEN m) req ->
      sync_protocol (Server.GIT_REPO_PATH m) (Server.BRANCH_NAME m)
        (trace (run (Server.src m req) w))).
Proof.
  split; intros m Ha.
  - intros repoPath. enter_app Ha. fold repoPath.
    eexists; split; [reflexivity|]. unfold sync_protocol.
    next_reply; (eexists _, _; split; [reflexivity|]);
      intros o1 [= <-].
    next_reply; (eexists _, _; split; [reflexivity|]);
      intros statusOutput [= <-].
    unfold Cmd.marker. sync_cases.
  - enter_server Ha. unfold sync_protocol.
    next_reply; (eexists _, _; split; [reflexivity|]);
      intros o1 [= <-].
    next_reply; (eexists _, _; split; [reflexivity|]);
      intros statusOutput [= <-].
    unfold Cmd.marker. sync_cases.
Qed.

(** ** The revision *)

Lemma take_min_length (n : nat) (s : string) :
  JS.take (Nat.min n (String.length s)) s = JS.take n s.
Proof.
  revert n. induction s as [|c s IH]; intros [|n]; cbn; try reflexivity.
  now rewrite IH.
Qed.

Lemma take_length (n : nat) (s : string) :
  String.length (JS.take n s) = Nat.min n (String.length s).
Proof.
  revert n. induction s as [|c s IH]; intros [|n]; cbn; try reflexivity.
  now rewrite IH.
Qed.

Lemma take_prefix (n : nat) (s : string) : JS.startsWith s (JS.take n s) = true.
Proof.
  revert n. induction s as [|c s IH]; intros [|n]; cbn; try reflexivity.
  now rewrite Ascii.eqb_refl, IH.
Qed.

(** [substring(0, 7)] takes the first seven characters. *)
Lemma substring_0_7 (s : string) : JS.substring s 0 7 = JS.take 7 s.
Proof.
  unfold JS.substring.
  rewrite !Nat.min_0_l, Nat.max_0_l, Nat.sub_0_r.
  change (JS.drop 0 s) with s. apply take_min_length.
Qed.

Lemma gitHash_revision (hashOutput : string) :
  JS.substring (JS.trim hashOutput) 0 7 = revision hashOutput.
Proof. apply substring_0_7. Qed.

(** Some hypothesis equates two command texts of different roles. *)
Ltac absurd_command :=
  match goal with
  | Hx : @eq string _ _ |- _ => solve [cmd_absurd Hx]
  end.

(** C6. In an authenticated request, the revision that names the archive
    is the first seven characters of the trimmed output of [rev-parse
    HEAD]: right after that command resolves, [server.js] looks for
    [src-<revision>.tar.gz] in the working copy and [app.js] for
    [src-<revision>-<id>.tar.gz] in the temporary folder.  The length is
    fixed (seven, or the whole text when it is shorter) and the name
    depends on the output through these characters alone: nothing
    compares it with the revisions archived before. *)
Theorem revision_is_seven_chars `{Host} (req : Request) (w : World) :
  (forall m : App.Consts,
      authenticated (App.TOKEN m) req ->
      forall pre hashOutput post,
        trace (run (App.src m req) w) =
        (pre ++ EvExec (Cmd.rev_parse (JS.interp (env w !! "GIT_REPO_PATH")))
                  (inr hashOutput) :: post)%list ->
        exists id r post',
          post = EvNanoid id
                 :: EvAccess (Path.join (App.tempFolder m)
                                ("src-" ++ revision hashOutput ++ "-" ++ id
                                 ++ ".tar.gz")) r
                 :: post')
  ∧
  (forall m : Server.Consts,
      authenticated (Server.TOKEN m) req ->
      forall pre hashOutput post,
        trace (run (Server.src m req) w) =
        (pre ++ EvExec (Cmd.rev_parse (Server.GIT_REPO_PATH m))
                  (inr hashOutput) :: post)%list ->
        exists r post',
          post = EvAccess (Path.join (Server.GIT_REPO_PATH m)
                             ("src-" ++ revision hashOutput ++ ".tar.gz")) r
                 :: post')
  ∧
  (forall hashOutput,
      String.length (revision hashOutput)
      = Nat.min 7 (String.length (JS.trim hashOutput))
      ∧ JS.startsWith (JS.trim hashOutput) (revision hashOutput) = true).
Proof.
  split; [|split].
  - intros m Ha pre hashOutput post. enter_app Ha.
    repeat next_reply; intros Heq;
      locate Heq ltac:(first [ absurd_command
                             | rewrite gitHash_revision;
                               eexists _, _, _; reflexivity ]).
  - intros m Ha pre hashOutput post. enter_server Ha.
    repeat next_reply; intros Heq;
      locate Heq ltac:(first [ absurd_command
                             | rewrite gitHash_revision;
                               eexists _, _; reflexivity ]).
  - intros hashOutput. unfold revision. split.
    + apply take_length.
    + apply take_prefix.
Qed.

(** ** The archive cache of [server.js] *)

Ltac recall_replies :=
  cbn;
  repeat match goal with
         | Hx : host_exec ?c ?s = _ |- context [host_exec ?c ?s] =>
             rewrite Hx; cbn
         end.

(** C3. In [server.js], the existence check of an authenticated request
    is made on [src-<revision>.tar.gz] joined to the working-copy path,
    the revision being that of the [rev-parse] output just obtained.
    When the check finds a file, the request runs no archive build: its
    commands are the fetch, the status, the pull if there was one, and
    the rev-parse; after the check it only writes a console line; it
    answers with the download of that path; and the outside is in the
    state these git commands left it in. *)
Theorem existing_archive_is_reused `{Host}
    (m : Server.Consts) (req : Request) (w : World) :
  authenticated (Server.TOKEN m) req ->
  let repo := Server.GIT_REPO_PATH m in
  let o := run (Server.src m req) w in
  forall pre path r post,
    trace o = (pre ++ EvAccess path r :: post)%list ->
    (exists pre' hashOutput,
        pre = (pre' ++ [EvExec (Cmd.rev_parse repo) (inr hashOutput)])%list ∧
        path = Path.join repo ("src-" ++ revision hashOutput ++ ".tar.gz"))
    ∧ (r = None ->
       (commands (trace o) = [Cmd.fetch repo; Cmd.status repo; Cmd.rev_parse repo]
        ∨ commands (trace o) = [Cmd.fetch repo; Cmd.status repo;
                                Cmd.pull repo (Server.BRANCH_NAME m);
                                Cmd.rev_parse repo])
       ∧ post = [EvConsole (Log "Tar file already exists, serving...")]
       ∧ result o = inr (Download path)
       ∧ sys (final o) = replay (commands pre) (sys w)).
Proof.
  intros Ha repo o pre path r post. subst o repo. enter_server Ha.
  repeat next_reply; intros Heq;
    locate Heq ltac:(
      rewrite gitHash_revision;
      split; [ first [ eexists [_; _], _; split; reflexivity
                     | eexists [_; _; _; _], _; split; reflexivity ] | ];
      intros Hr;
      first [ discriminate Hr
            | split; [ first [ left; reflexivity | right; reflexivity ] | ];
              split; [ reflexivity | ];
              split; [ reflexivity | ];
              unfold replay; recall_replies; reflexivity ]).
Qed.

(** ** The archive build *)

Lemma take_while_non_sep (l : list ascii) :
  Forall (fun c => Path.is_sep c = false) (Path.take_while Path.non_sep l).
Proof.
  induction l as [|c l IH]; cbn; [constructor|].
  unfold Path.non_sep at 1. destruct (Path.is_sep c) eqn:Hc; cbn; auto.
Qed.

Lemma includes_sep_false (l : list ascii) :
  Forall (fun c => Path.is_sep c = false) l ->
  JS.includes (string_of_list_ascii l) "/" = false.
Proof.
  induction 1 as [|c l Hc _ IH]; [reflexivity|].
  cbn [string_of_list_ascii JS.includes JS.startsWith].
  rewrite IH, orb_false_r. unfold Path.is_sep in Hc.
  rewrite Ascii.eqb_sym, Hc. reflexivity.
Qed.

(** A base name has no separator in it. *)
Lemma basename_no_sep (p : string) : JS.includes (Path.basename p) "/" = false.
Proof.
  unfold Path.basename. apply includes_sep_false.
  apply List.Forall_rev, take_while_non_sep.
Qed.

(** C2 (as the code has it).  The commands an authenticated request runs
    after its existence check are archive builds; when the check found
    nothing, the build is run, and it is the only command that follows.
    - In [app.js] the build is [tar -czf <path> -C <parent> <base>], with
      the parent directory and the base name of SRC_FOLDER, the base
      name holding no separator; the path is the one that was checked,
      [src-<revision>-<id>.tar.gz] in the temporary folder, for the
      revision just resolved and the identifier just drawn.
    - In [server.js] the build is [cd <GIT_REPO_PATH> && tar -czf
      src-<revision>.tar.gz <SRC_FOLDER>], for the revision just
      resolved: it runs in the working copy and names SRC_FOLDER as it
      is written, whatever directories that holds; the path that was
      checked is the archive name joined to the working copy.
    So every build of [app.js] is rooted at the parent directory of
    SRC_FOLDER and names its base name alone, as the specification has
    it, whatever the request. *)
Theorem build_roots `{Host} (req : Request) (w : World) :
  (forall m : App.Consts,
      authenticated (App.TOKEN m) req ->
      forall pre path r post,
        trace (run (App.src m req) w) = (pre ++ EvAccess path r :: post)%list ->
        let b := {| Tar.root := Path.dirname (App.SRC_FOLDER m);
                    Tar.operand := Path.basename (App.SRC_FOLDER m);
                    Tar.dest := path |} in
        (exists pre' hashOutput id,
            pre = (pre' ++ [EvExec (Cmd.rev_parse
                                      (JS.interp (env w !! "GIT_REPO_PATH")))
                              (inr hashOutput);
                            EvNanoid id])%list
            ∧ path = Path.join (App.tempFolder m)
                       ("src-" ++ revision hashOutput ++ "-" ++ id
                        ++ ".tar.gz"))
        ∧ (forall cmd, In cmd (commands post) -> cmd = Tar.via_C b)
        ∧ (forall e, r = Some e -> commands post = [Tar.via_C b])
        ∧ JS.includes (Tar.operand b) "/" = false)
  ∧
  (forall m : Server.Consts,
      authenticated (Server.TOKEN m) req ->
      forall pre path r post,
        trace (run (Server.src m req) w) = (pre ++ EvAccess path r :: post)%list ->
        exists pre' hashOutput,
          let b := {| Tar.root := Server.GIT_REPO_PATH m;
                      Tar.operand := Server.SRC_FOLDER m;
                      Tar.dest := "src-" ++ revision hashOutput ++ ".tar.gz" |} in
          pre = (pre' ++ [EvExec (Cmd.rev_parse (Server.GIT_REPO_PATH m))
                            (inr hashOutput)])%list
          ∧ path = Path.join (Server.GIT_REPO_PATH m) (Tar.dest b)
          ∧ (forall cmd, In cmd (commands post) -> cmd = Tar.via_cd b)
          ∧ (forall e, r = Some e -> commands post = [Tar.via_cd b]))
  ∧
  (forall (m : App.Consts) (repo : string),
      archives_base_name_only repo (App.SRC_FOLDER m)
        (run (App.src m req) w)).
Proof.
  split; [|split]; [intros m Ha pre path r post ..|].
  3: {
    intros m repo. unfold archives_base_name_only, App.src.
    destruct (negb _ || _); [intros cmd Hin; destruct Hin|]. cbn.
    repeat next_reply; intros cmd Hin Hb; cbn in Hin;
      repeat (destruct Hin as [Hin|Hin];
              [ subst cmd;
                first [ vm_compute in Hb; discriminate Hb
                      | left; eexists; left; reflexivity ] |]);
      destruct Hin. }
  - intros Heq. cbv zeta. cbn [Tar.operand].
    cut ((exists pre' hashOutput id,
             pre = (pre' ++ [EvExec (Cmd.rev_parse
                                       (JS.interp (env w !! "GIT_REPO_PATH")))
                               (inr hashOutput);
                             EvNanoid id])%list
             ∧ path = Path.join (App.tempFolder m)
                        ("src-" ++ revision hashOutput ++ "-" ++ id
                         ++ ".tar.gz"))
         ∧ (forall cmd, In cmd (commands post) ->
              cmd = Tar.via_C {| Tar.root := Path.dirname (App.SRC_FOLDER m);
                                 Tar.operand := Path.basename (App.SRC_FOLDER m);
                                 Tar.dest := path |})
         ∧ (forall e, r = Some e ->
              commands post
              = [Tar.via_C {| Tar.root := Path.dirname (App.SRC_FOLDER m);
                              Tar.operand := Path.basename (App.SRC_FOLDER m);
                              Tar.dest := path |}])).
    { intros (Hname & Hcmds & Hrun).
      split; [exact Hname|]. split; [exact Hcmds|]. split; [exact Hrun|].
      apply basename_no_sep. }
    revert Heq. enter_app Ha.
    repeat next_reply; intros Heq;
      locate Heq ltac:(
        rewrite ?gitHash_revision;
        split;
        [ first [ eexists [_; _; _], _, _; split; reflexivity
                | eexists [_; _; _; _; _], _, _; split; reflexivity ]
        | split;
          [ intros cmd Hin; cbn in Hin;
            repeat (destruct Hin as [Hin|Hin]; [subst cmd; reflexivity|]);
            destruct Hin
          | intros e' He; first [ discriminate He | reflexivity ] ] ]).
  - enter_server Ha.
    repeat next_reply; intros Heq;
      locate Heq ltac:(
        rewrite ?gitHash_revision; cbv zeta;
        first [ eexists [_; _], _; split; [reflexivity|]
              | eexists [_; _; _; _], _; split; [reflexivity|] ];
        split; [reflexivity|];
        split;
        [ intros cmd Hin; cbn in Hin;
          repeat (destruct Hin as [Hin|Hin]; [subst cmd; reflexivity|]);
          destruct Hin
        | intros e' He; first [ discriminate He | reflexivity ] ]).
Qed.

(** ** Command lines are plain concatenations *)

(** C9 (as the code has it).  Every command of an authenticated request
    is the concatenation of fixed text with values, none of them quoted
    or escaped: the git commands take the working-copy path and the
    branch name as they are; the build of [server.js] takes the
    working-copy path, the archive name and SRC_FOLDER as they are; the
    build of [app.js] takes the archive path and, for SRC_FOLDER, its
    [path.dirname] and its [path.basename]. *)
Theorem commands_are_concatenations `{Host} (req : Request) (w : World) :
  (forall m : App.Consts,
      authenticated (App.TOKEN m) req ->
      let repoPath := JS.interp (env w !! "GIT_REPO_PATH") in
      forall cmd,
        In cmd (commands (trace (run (App.src m req) w))) ->
        cmd = "git -C " ++ repoPath ++ " fetch origin"
        ∨ cmd = "git -C " ++ repoPath ++ " status"
        ∨ cmd = "git -C " ++ repoPath ++ " pull origin " ++ App.BRANCH_NAME m
        ∨ cmd = "git -C " ++ repoPath ++ " rev-parse HEAD"
        ∨ exists hashOutput id,
            let tarFilePath :=
              Path.join (App.tempFolder m)
                ("src-" ++ revision hashOutput ++ "-" ++ id ++ ".tar.gz") in
            cmd = "tar -czf " ++ tarFilePath
                  ++ " -C " ++ Path.dirname (App.SRC_FOLDER m)
                  ++ " " ++ Path.basename (App.SRC_FOLDER m))
  ∧
  (forall m : Server.Consts,
      authenticated (Server.TOKEN m) req ->
      let repo := Server.GIT_REPO_PATH m in
      forall cmd,
        In cmd (commands (trace (run (Server.src m req) w))) ->
        cmd = "git -C " ++ repo ++ " fetch origin"
        ∨ cmd = "git -C " ++ repo ++ " status"
        ∨ cmd = "git -C " ++ repo ++ " pull origin " ++ Server.BRANCH_NAME m
        ∨ cmd = "git -C " ++ repo ++ " rev-parse HEAD"
        ∨ exists hashOutput,
            cmd = "cd " ++ repo ++ " && tar -czf "
                  ++ ("src-" ++ revision hashOutput ++ ".tar.gz")
                  ++ " " ++ Server.SRC_FOLDER m).
Proof.
  split; intros m Ha.
  - intros repoPath cmd. subst repoPath. enter_app Ha.
    repeat next_reply; intros Hin;
      repeat (destruct Hin as [<-|Hin]; [ tauto || idtac | ]);
      try (destruct Hin);
      do 4 right; rewrite gitHash_revision; eexists _, _; reflexivity.
  - intros repo cmd. subst repo. enter_server Ha.
    repeat next_reply; intros Hin;
      repeat (destruct Hin as [<-|Hin]; [ tauto || idtac | ]);
      try (destruct Hin);
      do 4 right; rewrite gitHash_revision; eexists; reflexivity.
Qed.

(** ** What is read when *)


(** ** Two requests in flight *)

Lemma step_steps `{Host} {A : Type} (p p' p'' : Prog A) (w w' : World)
    (ev : Event) (t : list Event) :
  step p w = Some (ev, p', w') -> Steps p' t p'' -> Steps p (ev :: t) p''.
Proof.
  destruct p; cbn; try discriminate.
  - destruct (host_exec cmd (sys w)) as [r s]. intros [= <- <- <-].
    now constructor.
  - intros [= <- <- <-]. now constructor.
  - destruct (host_unlink path (sys w)) as [r s]. intros [= <- <- <-].
    now constructor.
  - destruct (host_nanoid (sys w)) as [id s]. intros [= <- <- <-].
    now constructor.
  - intros [= <- <- <-]. now constructor.
  - intros [= <- <- <-]. now constructor.
Qed.

(** A run to the end is one way of making the calls. *)
Lemma run_steps `{Host} {A : Type} (p : Prog A) (w : World) :
  Steps p (trace (run p w))
    (match result (run p w) with
     | inr a => Ret a
     | inl e => Throw e
     end).
Proof.
  revert w. induction p as [a|e|cmd k IH|path k IH|path k IH|k IH|key k IH|l k IH];
    intros w; cbn.
  - constructor.
  - constructor.
  - destruct (host_exec cmd (sys w)) as [r s]. cbn. constructor. apply IH.
  - constructor. apply IH.
  - destruct (host_unlink path (sys w)) as [r s]. cbn. constructor. apply IH.
  - destruct (host_nanoid (sys w)) as [id s]. cbn. constructor. apply IH.
  - constructor. apply IH.
  - constructor. apply IH.
Qed.

(** Whatever the schedule, each request sees a run of its own. *)
Lemma interleave_lanes `{Host} {A : Type} (sched : list bool) :
  forall (p q : Prog A) (w : World) t p' q' w',
    interleave sched p q w = (t, (p', q'), w') ->
    Steps p (lane false t) p' ∧ Steps q (lane true t) q'.
Proof.
  induction sched as [|[|] sched IH]; intros p q w t p' q' w'; cbn.
  - intros [= <- <- <- <-]. split; constructor.
  - destruct (step q w) as [[[ev q1] w1]|] eqn:Hstep; [|apply IH].
    destruct (interleave sched p q1 w1) as [[t1 pq] w2] eqn:Hrest.
    intros [= <- -> <-]. apply IH in Hrest as [Hp Hq]. cbn.
    split; [exact Hp | eapply step_steps; eassumption].
  - destruct (step p w) as [[[ev p1] w1]|] eqn:Hstep; [|apply IH].
    destruct (interleave sched p1 q w1) as [[t1 pq] w2] eqn:Hrest.
    intros [= <- -> <-]. apply IH in Hrest as [Hp Hq]. cbn.
    split; [eapply step_steps; eassumption | exact Hq].
Qed.

Lemma is_build_git (repo verb : string) :
  is_build ("git -C " ++ repo ++ verb) = false.
Proof. reflexivity. Qed.

Lemma is_build_cd (rest : string) : is_build ("cd " ++ rest) = true.
Proof. reflexivity. Qed.

(** Following a request call by call. *)
Ltac unroll :=
  repeat (cbn in *;
    match goal with
    | Hs : Steps (Ret _) _ _ |- _ => inversion Hs; subst; clear Hs
    | Hs : Steps (Throw _) _ _ |- _ => inversion Hs; subst; clear Hs
    | Hs : Steps (Exec _ _) _ _ |- _ => inversion Hs; subst; clear Hs
    | Hs : Steps (Access _ _) _ _ |- _ => inversion Hs; subst; clear Hs
    | Hs : Steps (Console _ _) _ _ |- _ => inversion Hs; subst; clear Hs
    | Hs : Steps ?p _ _ |- _ =>
        match p with
        | context [settle ?r] => is_var r; destruct r
        | context [settle_void ?r] => is_var r; destruct r
        | context [JS.includes ?a ?b] => destruct (JS.includes a b) eqn:?
        end
    end).

Ltac find_event :=
  solve [ cbn; repeat first [ left; reflexivity | right ] ].

(** One request of [server.js], however far it got: it started at most
    one build; a build it started comes after an existence check of its
    own that was rejected; and if it is done with a download, that is
    the archive of the revision it resolved. *)
Lemma server_request_alone (m : Server.Consts) (req : Request)
    (t : list Event) (p' : Prog Response) :
  authenticated (Server.TOKEN m) req ->
  Steps (Server.src m req) t p' ->
  builds t <= 1
  ∧ (forall pre cmd r post,
        t = (pre ++ EvExec cmd r :: post)%list -> is_build cmd = true ->
        exists path e, In (EvAccess path (Some e)) pre)
  ∧ (forall path,
        p' = Ret (Download path) ->
        exists hashOutput,
          In (EvExec (Cmd.rev_parse (Server.GIT_REPO_PATH m)) (inr hashOutput)) t
          ∧ path = Path.join (Server.GIT_REPO_PATH m)
                     ("src-" ++ revision hashOutput ++ ".tar.gz")).
Proof.
  intros Ha. unfold Server.src. rewrite (auth_check_passes _ _ Ha).
  intros Hs. unroll.
  all: split;
    [ cbn; rewrite ?is_build_git, ?is_build_cd; lia
    | split;
      [ intros pre cmd r post Heq Hb;
        locate Heq ltac:(first [ rewrite is_build_git in Hb; discriminate Hb
                               | eexists _, _; find_event ])
      | intros path Hp;
        first [ discriminate Hp
              | injection Hp as <-; rewrite gitHash_revision;
                eexists; split; [ find_event | reflexivity ] ] ] ].
Qed.

Lemma is_tar_git (repo verb : string) :
  is_tar ("git -C " ++ repo ++ verb) = false.
Proof. reflexivity. Qed.

Lemma is_tar_tar (rest : string) : is_tar ("tar -czf " ++ rest) = true.
Proof. reflexivity. Qed.

Ltac unroll_app :=
  repeat (cbn in *;
    match goal with
    | Hs : Steps (Ret _) _ _ |- _ => inversion Hs; subst; clear Hs
    | Hs : Steps (Throw _) _ _ |- _ => inversion Hs; subst; clear Hs
    | Hs : Steps (Exec _ _) _ _ |- _ => inversion Hs; subst; clear Hs
    | Hs : Steps (Access _ _) _ _ |- _ => inversion Hs; subst; clear Hs
    | Hs : Steps (Unlink _ _) _ _ |- _ => inversion Hs; subst; clear Hs
    | Hs : Steps (Nanoid _) _ _ |- _ => inversion Hs; subst; clear Hs
    | Hs : Steps (GetEnv _ _) _ _ |- _ => inversion Hs; subst; clear Hs
    | Hs : Steps (Console _ _) _ _ |- _ => inversion Hs; subst; clear Hs
    | Hs : Steps ?p _ _ |- _ =>
        match p with
        | context [settle ?r] => is_var r; destruct r
        | context [settle_void ?r] => is_var r; destruct r
        | context [JS.includes ?a ?b] => destruct (JS.includes a b) eqn:?
        | context [match ?r with _ => _ end] => is_var r; destruct r
        end
    end).

(** One request of [app.js] that ends with a download has run exactly
    one build. *)
Lemma app_request_alone (m : App.Consts) (req : Request)
    (t : list Event) (path : string) :
  authenticated (App.TOKEN m) req ->
  Steps (App.src m req) t (Ret (Download path)) ->
  tar_builds t = 1.
Proof.
  intros Ha. unfold App.src. rewrite (auth_check_passes _ _ Ha).
  intros Hs. unroll_app.
  all: cbn; rewrite ?is_tar_git, ?is_tar_tar; reflexivity.
Qed.

Lemma builds_lanes (t : list (bool * Event)) :
  builds (map snd t) = builds (lane false t) + builds (lane true t).
Proof.
  induction t as [|[[|] ev] t IH]; cbn; [reflexivity| |];
    destruct ev; cbn; try destruct (is_build cmd); lia.
Qed.

Lemma race_builds_twice :
  exists t w',
    interleave (H := Sim.host Race.rules) Race.sched Race.first Race.second
      Race.start
    = (t, (Ret (Download "/repo/src-0a1b2c3.tar.gz"),
           Ret (Download "/repo/src-0a1b2c3.tar.gz")), w')
    ∧ builds (map snd t) = 2.
Proof. eexists _, _. split; vm_compute; reflexivity. Qed.

(** C7 (as the code has it).  Two authenticated requests in flight,
    under any schedule:
    - in [server.js] each request starts at most one archive build, so
      two at most are started, and a build comes after an existence
      check of the same request that was rejected; a request that ends
      with a download serves [src-<revision>.tar.gz] in the working
      copy, for the revision it resolved itself;
    - in [app.js] each request that ends with a download has run one
      build of its own;
    - nothing serialises the builds of a revision: there is a schedule
      of two first requests in which both end with the same download and
      two builds were started. *)
Theorem builds_are_per_request :
  (forall (H : Host) (sched : list bool) (m : Server.Consts)
          (req1 req2 : Request) (w : World) t p1 p2 w',
      authenticated (Server.TOKEN m) req1 ->
      authenticated (Server.TOKEN m) req2 ->
      interleave sched (Server.src m req1) (Server.src m req2) w
      = (t, (p1, p2), w') ->
      builds (map snd t) <= 2
      ∧ forall who : bool,
          let mine := lane who t in
          builds mine <= 1
          ∧ (forall pre cmd r post,
                mine = (pre ++ EvExec cmd r :: post)%list ->
                is_build cmd = true ->
                exists path e, In (EvAccess path (Some e)) pre)
          ∧ (forall path,
                (if who then p2 else p1) = Ret (Download path) ->
                exists hashOutput,
                  In (EvExec (Cmd.rev_parse (Server.GIT_REPO_PATH m))
                        (inr hashOutput)) mine
                  ∧ path = Path.join (Server.GIT_REPO_PATH m)
                             ("src-" ++ revision hashOutput ++ ".tar.gz")))
  ∧
  (forall (H : Host) (sched : list bool) (m : App.Consts)
          (req1 req2 : Request) (w : World) t p1 p2 w',
      authenticated (App.TOKEN m) req1 ->
      authenticated (App.TOKEN m) req2 ->
      interleave sched (App.src m req1) (App.src m req2) w
      = (t, (p1, p2), w') ->
      forall (who : bool) path,
        (if who then p2 else p1) = Ret (Download path) ->
        tar_builds (lane who t) = 1)
  ∧
  (exists t w',
      interleave (H := Sim.host Race.rules) Race.sched Race.first Race.second
        Race.start
      = (t, (Ret (Download "/repo/src-0a1b2c3.tar.gz"),
             Ret (Download "/repo/src-0a1b2c3.tar.gz")), w')
      ∧ builds (map snd t) = 2).
Proof.
  split; [|split].
  - intros H sched m req1 req2 w t p1 p2 w' Ha1 Ha2 Hrun.
    apply interleave_lanes in Hrun as [Hs1 Hs2].
    pose proof (server_request_alone _ _ _ _ Ha1 Hs1) as (Hb1 & Hc1 & Hd1).
    pose proof (server_request_alone _ _ _ _ Ha2 Hs2) as (Hb2 & Hc2 & Hd2).
    split; [rewrite builds_lanes; lia|].
    intros [|]; cbv zeta; auto.
  - intros H sched m req1 req2 w t p1 p2 w' Ha1 Ha2 Hrun.
    apply interleave_lanes in Hrun as [Hs1 Hs2].
    intros [|] path Hp; subst.
    + exact (app_request_alone _ _ _ _ Ha2 Hs2).
    + exact (app_request_alone _ _ _ _ Ha1 Hs1).
  - exact race_builds_twice.
Qed.

(** ** Where the specification and the code part *)

Lemma good_is_authenticated : authenticated "secret" Demo.good.
Proof. split; [discriminate | reflexivity]. Qed.

(** C2, counterexample.  [server.js] with SRC_FOLDER [packages/app]: the
    request runs [cd /repo && tar -czf src-0a1b2c3.tar.gz packages/app].
    The build is rooted at the working copy, neither at [packages] nor
    at [/repo/packages], and it names [packages/app], not the base name
    [app]. *)
Lemma nested_folder_keeps_its_ancestors :
  let o := run (H := Sim.host Demo.nested_rules)
             (Server.src Demo.nested Demo.good) Demo.nested_world in
  result o = inr (Download "/repo/src-0a1b2c3.tar.gz")
  ∧ In (Tar.via_cd Demo.nested_build) (commands (trace o))
  ∧ Tar.root Demo.nested_build ≠ Path.dirname (Server.SRC_FOLDER Demo.nested)
  ∧ Tar.operand Demo.nested_build ≠ Path.basename (Server.SRC_FOLDER Demo.nested)
  ∧ ¬ archives_base_name_only (Server.GIT_REPO_PATH Demo.nested)
        (Server.SRC_FOLDER Demo.nested) o.
Proof.
  cbv zeta.
  assert (Hin : In (Tar.via_cd Demo.nested_build)
                  (commands (trace (run (H := Sim.host Demo.nested_rules)
                     (Server.src Demo.nested Demo.good) Demo.nested_world)))).
  { vm_compute. tauto. }
  split; [reflexivity|]. split; [exact Hin|].
  split; [discriminate|]. split; [discriminate|].
  intros Hclaim.
  destruct (Hclaim _ Hin eq_refl) as [[dest [Hx|Hx]]|[dest [Hx|Hx]]];
    vm_compute in Hx; discriminate Hx.
Qed.

(** C7, counterexample.  Two first requests for the same new revision,
    each reaching its existence check before the other builds: both end
    with the download and two builds were started. *)
Lemma racing_requests_build_twice :
  ¬ exactly_one_build (H := Sim.host Race.rules)
      Race.first Race.second Race.start.
Proof.
  intros Hclaim. destruct race_builds_twice as (t & w' & Hrun & Htwo).
  apply Hclaim in Hrun. rewrite Htwo in Hrun. discriminate Hrun.
Qed.

(** C9, counterexample.  [app.js] with SRC_FOLDER [/srv/app]: the build
    is [tar -czf /tmp/src-0a1b2c3-V1StGXR8.tar.gz -C /srv app], and no
    command of the request contains [/srv/app]. *)
Lemma source_folder_is_not_verbatim :
  let o := run (H := Sim.host Demo.app_rules)
             (App.src Demo.app Demo.good) Demo.app_world in
  In "tar -czf /tmp/src-0a1b2c3-V1StGXR8.tar.gz -C /srv app"
     (commands (trace o))
  ∧ ¬ folder_verbatim (App.SRC_FOLDER Demo.app) (trace o).
Proof.
  cbv zeta. split; [vm_compute; tauto|].
  intros (cmd & Hin & _ & Hinc). vm_compute in Hin.
  repeat (destruct Hin as [<-|Hin]; [vm_compute in Hinc; discriminate Hinc|]).
  destruct Hin.
Qed.

(** ** The theorems at work *)

(** A wrong token on [app.js] and no header at all on [server.js]. *)
Lemma unauthorized_is_silent_witness :
  headers Demo.bad !! "auth" ≠ Some (App.TOKEN Demo.app)
  ∧ headers Sim.anonymous !! "auth" ≠ Some (Server.TOKEN Demo.server)
  ∧ run (H := Sim.host Race.rules) (App.src Demo.app Demo.bad) Race.start
    = {| trace := []; final := Race.start;
         result := inr (Send 401 "Unauthorized") |}
  ∧ run (H := Sim.host Race.rules) (Server.src Demo.server Sim.anonymous)
      Race.start
    = {| trace := []; final := Race.start;
         result := inr (Send 401 "Unauthorized") |}.
Proof.
  assert (H1 : headers Demo.bad !! "auth" ≠ Some (App.TOKEN Demo.app))
    by discriminate.
  assert (H2 : headers Sim.anonymous !! "auth"
               ≠ Some (Server.TOKEN Demo.server))
    by discriminate.
  split; [exact H1|]. split; [exact H2|].
  split.
  - exact (proj1 (unauthorized_is_silent (H := Sim.host Race.rules)
                    Demo.bad Race.start) Demo.app H1).
  - exact (proj2 (unauthorized_is_silent (H := Sim.host Race.rules)
                    Sim.anonymous Race.start) Demo.server H2).
Defined.

(** The build of [app.js] for [/srv/app] and that of [server.js] for
    [packages/app]. *)
Lemma build_roots_witness :
  authenticated (App.TOKEN Demo.app) Demo.good
  ∧ authenticated (Server.TOKEN Demo.nested) Demo.good
  ∧ commands
      [EvExec "tar -czf /tmp/src-0a1b2c3-V1StGXR8.tar.gz -C /srv app" (inr "")]
    = [Tar.via_C {| Tar.root := "/srv"; Tar.operand := "app";
                    Tar.dest := "/tmp/src-0a1b2c3-V1StGXR8.tar.gz" |}]
  ∧ (exists pre' hashOutput,
        [Demo.fetched; Demo.status_seen; Demo.resolved]
        = (pre' ++ [EvExec (Cmd.rev_parse "/repo") (inr hashOutput)])%list
        ∧ "/repo/src-0a1b2c3.tar.gz"
          = Path.join "/repo" ("src-" ++ revision hashOutput ++ ".tar.gz")
        ∧ commands
            [EvConsole (Log "Creating tar file...");
             EvExec "cd /repo && tar -czf src-0a1b2c3.tar.gz packages/app"
               (inr "")]
          = [Tar.via_cd {| Tar.root := "/repo"; Tar.operand := "packages/app";
                           Tar.dest := "src-" ++ revision hashOutput
                                       ++ ".tar.gz" |}]).
Proof.
  pose proof good_is_authenticated as Ha.
  destruct (build_roots (H := Sim.host Demo.app_rules)
              Demo.good Demo.app_world) as [Happ _].
  destruct (build_roots (H := Sim.host Demo.nested_rules)
              Demo.good Demo.nested_world) as (_ & Hsrv & _).
  split; [exact Ha|]. split; [exact Ha|]. split.
  - refine (proj1 (proj2 (proj2 (Happ Demo.app Ha
              [EvGetEnv "GIT_REPO_PATH" (Some "/repo"); Demo.fetched;
               Demo.status_seen; Demo.resolved; EvNanoid "V1StGXR8"]
              "/tmp/src-0a1b2c3-V1StGXR8.tar.gz" _ _ _))) _ eq_refl).
    vm_compute. reflexivity.
  - destruct (Hsrv Demo.nested Ha
                [Demo.fetched; Demo.status_seen; Demo.resolved]
                "/repo/src-0a1b2c3.tar.gz" _ _ ltac:(vm_compute; reflexivity))
      as (pre' & hashOutput & Hpre & Hpath & _ & Hrun).
    exists pre', hashOutput.
    split; [exact Hpre|]. split; [exact Hpath|]. exact (Hrun _ eq_refl).
Defined.

(** A second request, once a first one has built the archive: no build. *)
Lemma existing_archive_is_reused_witness :
  let o := run (H := Sim.host Race.rules)
             (Server.src Demo.server Demo.good) Demo.built in
  authenticated (Server.TOKEN Demo.server) Demo.good
  ∧ trace o = ([Demo.fetched; Demo.status_seen; Demo.resolved]
               ++ EvAccess "/repo/src-0a1b2c3.tar.gz" None
               :: [EvConsole (Log "Tar file already exists, serving...")])%list
  ∧ result o = inr (Download "/repo/src-0a1b2c3.tar.gz")
  ∧ builds (trace (run (H := Sim.host Race.rules) Race.first Race.start)) = 1
  ∧ builds (trace o) = 0.
Proof.
  cbv zeta.
  pose proof good_is_authenticated as Ha.
  assert (Ht : trace (run (H := Sim.host Race.rules)
                        (Server.src Demo.server Demo.good) Demo.built)
               = ([Demo.fetched; Demo.status_seen; Demo.resolved]
                  ++ EvAccess "/repo/src-0a1b2c3.tar.gz" None
                  :: [EvConsole (Log "Tar file already exists, serving...")])%list)
    by (vm_compute; reflexivity).
  destruct (existing_archive_is_reused (H := Sim.host Race.rules)
              Demo.server Demo.good Demo.built Ha _ _ _ _ Ht)
    as (_ & Hhit).
  destruct (Hhit eq_refl) as (_ & _ & Hres & _).
  split; [exact Ha|]. split; [exact Ht|]. split; [exact Hres|].
  split; vm_compute; reflexivity.
Defined.

(** Both variants on a working copy that is up to date. *)
Lemma pull_iff_marker_absent_witness :
  authenticated (App.TOKEN Demo.app) Demo.good
  ∧ authenticated (Server.TOKEN Demo.server) Demo.good
  ∧ (exists t,
        trace (run (H := Sim.host Demo.app_rules)
                 (App.src Demo.app Demo.good) Demo.app_world)
        = EvGetEnv "GIT_REPO_PATH" (Some "/repo") :: t
        ∧ sync_protocol "/repo" "main" t)
  ∧ sync_protocol "/repo" "main"
      (trace (run (H := Sim.host Race.rules)
                (Server.src Demo.server Demo.good) Race.start)).
Proof.
  pose proof good_is_authenticated as Ha.
  destruct (pull_iff_marker_absent (H := Sim.host Demo.app_rules)
              Demo.good Demo.app_world) as [Happ _].
  destruct (pull_iff_marker_absent (H := Sim.host Race.rules)
              Demo.good Race.start) as [_ Hsrv].
  split; [exact Ha|]. split; [exact Ha|].
  split; [exact (Happ Demo.app Ha) | exact (Hsrv Demo.server Ha)].
Defined.

(** A build that fails in [server.js], a fetch that fails in [app.js]. *)
Lemma command_failure_is_terminal_witness :
  let failed := "Command failed: cd /repo && tar -czf src-0a1b2c3.tar.gz src" in
  let o := run (H := Sim.host Sim.git_rules)
             (Server.src Demo.server Demo.good) Demo.no_tar in
  let o' := run (H := Sim.host Sim.git_rules)
              (App.src Demo.app Demo.good) Demo.lost_world in
  authenticated (Server.TOKEN Demo.server) Demo.good
  ∧ trace o = ([Demo.fetched; Demo.status_seen; Demo.resolved;
                Demo.missing "/repo/src-0a1b2c3.tar.gz";
                EvConsole (Log "Creating tar file...")]
               ++ EvExec "cd /repo && tar -czf src-0a1b2c3.tar.gz src"
                    (inl failed)
               :: [logged failed])%list
  ∧ result o = inr (Send 500 "Internal Server Error")
  ∧ authenticated (App.TOKEN Demo.app) Demo.good
  ∧ result o' = inr (Send 500 "Internal Server Error").
Proof.
  cbv zeta.
  pose proof good_is_authenticated as Ha.
  destruct (command_failure_is_terminal (H := Sim.host Sim.git_rules)
              Demo.good Demo.no_tar) as [_ Hsrv].
  destruct (command_failure_is_terminal (H := Sim.host Sim.git_rules)
              Demo.good Demo.lost_world) as [Happ _].
  assert (Ht : trace (run (H := Sim.host Sim.git_rules)
                        (Server.src Demo.server Demo.good) Demo.no_tar)
               = ([Demo.fetched; Demo.status_seen; Demo.resolved;
                   Demo.missing "/repo/src-0a1b2c3.tar.gz";
                   EvConsole (Log "Creating tar file...")]
                  ++ EvExec "cd /repo && tar -czf src-0a1b2c3.tar.gz src"
                       (inl "Command failed: cd /repo && tar -czf src-0a1b2c3.tar.gz src")
                  :: [logged "Command failed: cd /repo && tar -czf src-0a1b2c3.tar.gz src"])%list)
    by (vm_compute; reflexivity).
  assert (Ht' : trace (run (H := Sim.host Sim.git_rules)
                         (App.src Demo.app Demo.good) Demo.lost_world)
                = ([EvGetEnv "GIT_REPO_PATH" (Some "/nonexistent/path")]
                   ++ EvExec "git -C /nonexistent/path fetch origin"
                        (inl "Command failed: git -C /nonexistent/path fetch origin")
                   :: [logged "Command failed: git -C /nonexistent/path fetch origin"])%list)
    by (vm_compute; reflexivity).
  split; [exact Ha|]. split; [exact Ht|].
  split; [exact (proj2 (Hsrv Demo.server Ha _ _ _ _ Ht))|].
  split; [exact Ha|].
  exact (proj2 (Happ Demo.app Ha _ _ _ _ Ht')).
Defined.

(** The head [0a1b2c3d4e5f...] is archived under [0a1b2c3]. *)
Lemma revision_is_seven_chars_witness :
  let o := run (H := Sim.host Race.rules)
             (Server.src Demo.server Demo.good) Race.start in
  let o' := run (H := Sim.host Demo.app_rules)
              (App.src Demo.app Demo.good) Demo.app_world in
  authenticated (Server.TOKEN Demo.server) Demo.good
  ∧ revision Sim.head = "0a1b2c3"
  ∧ (exists r post,
        skipn 3 (trace o)
        = EvAccess (Path.join "/repo" ("src-" ++ revision Sim.head ++ ".tar.gz")) r
          :: post)
  ∧ (exists id r post,
        skipn 4 (trace o')
        = EvNanoid id
          :: EvAccess (Path.join "/tmp" ("src-" ++ revision Sim.head ++ "-" ++ id
                                         ++ ".tar.gz")) r
          :: post).
Proof.
  cbv zeta.
  pose proof good_is_authenticated as Ha.
  destruct (revision_is_seven_chars (H := Sim.host Race.rules)
              Demo.good Race.start) as (_ & Hsrv & _).
  destruct (revision_is_seven_chars (H := Sim.host Demo.app_rules)
              Demo.good Demo.app_world) as (Happ & _ & _).
  split; [exact Ha|]. split; [reflexivity|]. split.
  - exact (Hsrv Demo.server Ha [Demo.fetched; Demo.status_seen] Sim.head
             (skipn 3 (trace (run (H := Sim.host Race.rules)
                                (Server.src Demo.server Demo.good) Race.start)))
             ltac:(vm_compute; reflexivity)).
  - exact (Happ Demo.app Ha
             [EvGetEnv "GIT_REPO_PATH" (Some "/repo"); Demo.fetched;
              Demo.status_seen] Sim.head
             (skipn 4 (trace (run (H := Sim.host Demo.app_rules)
                                (App.src Demo.app Demo.good) Demo.app_world)))
             ltac:(vm_compute; reflexivity)).
Defined.

(** The race, seen through the bounds that hold for every schedule. *)
Lemma builds_are_per_request_witness :
  authenticated (Server.TOKEN Race.consts) Demo.good
  ∧ exists t p1 p2 w',
      interleave (H := Sim.host Race.rules) Race.sched Race.first Race.second
        Race.start = (t, (p1, p2), w')
      ∧ builds (map snd t) <= 2
      ∧ builds (lane false t) <= 1
      ∧ builds (lane true t) <= 1.
Proof.
  pose proof good_is_authenticated as Ha.
  split; [exact Ha|].
  destruct (interleave (H := Sim.host Race.rules) Race.sched Race.first
              Race.second Race.start) as [[t [p1 p2]] w'] eqn:Hrun.
  destruct (proj1 builds_are_per_request (Sim.host Race.rules) Race.sched
              Race.consts Demo.good Demo.good Race.start t p1 p2 w' Ha Ha Hrun)
    as [Htotal Heach].
  exists t, p1, p2, w'.
  split; [reflexivity|]. split; [exact Htotal|].
  split; [exact (proj1 (Heach false)) | exact (proj1 (Heach true))].
Defined.

(** A working copy at [/nonexistent/path]. *)
Lemma fetch_failure_creates_nothing_witness :
  let failed := "Command failed: git -C /nonexistent/path fetch origin" in
  authenticated (Server.TOKEN Demo.lost) Demo.good
  ∧ host_exec (Host := Sim.host Sim.git_rules)
      (Cmd.fetch (Server.GIT_REPO_PATH Demo.lost)) (sys Demo.lost_world)
    = (inl failed, sys Demo.lost_world)
  ∧ run (H := Sim.host Sim.git_rules) (Server.src Demo.lost Demo.good)
      Demo.lost_world
    = {| trace := [EvExec "git -C /nonexistent/path fetch origin" (inl failed);
                   logged failed];
         final := Demo.lost_world;
         result := inr (Send 500 "Internal Server Error") |}
  ∧ authenticated (App.TOKEN Demo.app) Demo.good
  ∧ run (H := Sim.host Sim.git_rules) (App.src Demo.app Demo.good)
      Demo.lost_world
    = {| trace := [EvGetEnv "GIT_REPO_PATH" (Some "/nonexistent/path");
                   EvExec "git -C /nonexistent/path fetch origin" (inl failed);
                   logged failed];
         final := Demo.lost_world;
         result := inr (Send 500 "Internal Server Error") |}
  ∧ same_files (H := Sim.host Sim.git_rules)
      (sys (final (run (H := Sim.host Sim.git_rules)
                     (Server.src Demo.lost Demo.good) Demo.lost_world)))
      (sys Demo.lost_world).
Proof.
  cbv zeta.
  pose proof good_is_authenticated as Ha.
  assert (Hf : host_exec (Host := Sim.host Sim.git_rules)
                 (Cmd.fetch "/nonexistent/path") (sys Demo.lost_world)
               = (inl "Command failed: git -C /nonexistent/path fetch origin",
                  sys Demo.lost_world))
    by reflexivity.
  destruct (fetch_failure_creates_nothing (H := Sim.host Sim.git_rules)
              Demo.good Demo.lost_world
              "Command failed: git -C /nonexistent/path fetch origin"
              (sys Demo.lost_world)) as [Happ Hsrv].
  destruct (Hsrv Demo.lost Ha Hf) as [Hrun Hfiles].
  destruct (Happ Demo.app Ha Hf) as [Hrun' _].
  split; [exact Ha|]. split; [exact Hf|]. split; [exact Hrun|].
  split; [exact Ha|]. split; [exact Hrun'|].
  apply Hfiles. intros path. reflexivity.
Defined.

(** A working-copy path with a semicolon in it goes into the command as
    it is. *)
Lemma commands_are_concatenations_witness :
  let w := Sim.world Sim.git_rules
             (<[ "GIT_REPO_PATH" := "/repo; echo pwned" ]> Demo.env0) [] [] in
  let cmd := "git -C /repo; echo pwned fetch origin" in
  authenticated (App.TOKEN Demo.app) Demo.good
  ∧ In cmd (commands (trace (run (H := Sim.host Sim.git_rules)
                               (App.src Demo.app Demo.good) w)))
  ∧ authenticated (Server.TOKEN Demo.nested) Demo.good
  ∧ In "cd /repo && tar -czf src-0a1b2c3.tar.gz packages/app"
      (commands (trace (run (H := Sim.host Demo.nested_rules)
                          (Server.src Demo.nested Demo.good) Demo.nested_world)))
  ∧ (cmd = "git -C " ++ "/repo; echo pwned" ++ " fetch origin"
     ∨ cmd = "git -C " ++ "/repo; echo pwned" ++ " status"
     ∨ cmd = "git -C " ++ "/repo; echo pwned" ++ " pull origin " ++ "main"
     ∨ cmd = "git -C " ++ "/repo; echo pwned" ++ " rev-parse HEAD"
     ∨ exists hashOutput id,
         cmd = "tar -czf "
               ++ Path.join "/tmp"
                    ("src-" ++ revision hashOutput ++ "-" ++ id ++ ".tar.gz")
               ++ " -C " ++ Path.dirname "/srv/app"
               ++ " " ++ Path.basename "/srv/app").
Proof.
  cbv zeta.
  pose proof good_is_authenticated as Ha.
  assert (Hin : In "git -C /repo; echo pwned fetch origin"
                  (commands (trace (run (H := Sim.host Sim.git_rules)
                     (App.src Demo.app Demo.good)
                     (Sim.world Sim.git_rules
                        (<[ "GIT_REPO_PATH" := "/repo; echo pwned" ]> Demo.env0)
                        [] [])))))
    by (vm_compute; tauto).
  assert (Hin' : In "cd /repo && tar -czf src-0a1b2c3.tar.gz packages/app"
                   (commands (trace (run (H := Sim.host Demo.nested_rules)
                      (Server.src Demo.nested Demo.good) Demo.nested_world))))
    by (vm_compute; tauto).
  destruct (commands_are_concatenations (H := Sim.host Sim.git_rules)
              Demo.good
              (Sim.world Sim.git_rules
                 (<[ "GIT_REPO_PATH" := "/repo; echo pwned" ]> Demo.env0)
                 [] [])) as [Happ _].
  destruct (commands_are_concatenations (H := Sim.host Demo.nested_rules)
              Demo.good Demo.nested_world) as [_ Hsrv].
  pose proof (Hsrv Demo.nested Ha _ Hin') as _.
  split; [exact Ha|]. split; [exact Hin|]. split; [exact Ha|].
  split; [exact Hin'|].
  exact (Happ Demo.app Ha _ Hin).
Defined.


(** * More of the code *)

(** ** The answers *)

(** X1. Whatever the request and the outside, both handlers end with an
    answer, never with an exception, and the answer is one of three: 401
    "Unauthorized", 500 "Internal Server Error", or a download. *)
Theorem src_answers_in_three_ways `{Host} (req : Request) (w : World) :
  (forall m : App.Consts,
      exists r, result (run (App.src m req) w) = inr r ∧ src_answer r)
  ∧
  (forall m : Server.Consts,
      exists r, result (run (Server.src m req) w) = inr r ∧ src_answer r).
Proof.
  unfold src_answer. split; intros m.
  - unfold App.src. destruct (negb _ || _); [eexists; split; [reflexivity|tauto]|].
    cbn. repeat next_reply; eexists; (split; [reflexivity|]); eauto.
  - unfold Server.src. destruct (negb _ || _); [eexists; split; [reflexivity|tauto]|].
    cbn. repeat next_reply; eexists; (split; [reflexivity|]); eauto.
Qed.

(** X2. An empty [auth] header is refused whatever the secret is.  With
    a secret that is not empty, as every loaded module has, the answer
    is 401 "Unauthorized" exactly when the header is absent or differs
    from the secret: a request that carries it is never refused. *)
Theorem refused_iff_wrong_token `{Host} (req : Request) (w : World) :
  (forall m : App.Consts,
      (headers req !! "auth" = Some "" ->
       result (run (App.src m req) w) = inr (Send 401 "Unauthorized"))
      ∧ (App.TOKEN m ≠ "" ->
         (result (run (App.src m req) w) = inr (Send 401 "Unauthorized")
          <-> headers req !! "auth" ≠ Some (App.TOKEN m))))
  ∧
  (forall m : Server.Consts,
      (headers req !! "auth" = Some "" ->
       result (run (Server.src m req) w) = inr (Send 401 "Unauthorized"))
      ∧ (Server.TOKEN m ≠ "" ->
         (result (run (Server.src m req) w) = inr (Send 401 "Unauthorized")
          <-> headers req !! "auth" ≠ Some (Server.TOKEN m)))).
Proof.
  split; intros m; split.
  - intros Hempty. unfold App.src. rewrite Hempty. reflexivity.
  - intros Hne. split.
    + intros H401 Heq.
      assert (Ha : authenticated (App.TOKEN m) req) by (split; assumption).
      revert H401. enter_app Ha. repeat next_reply; discriminate.
    + intros Hwrong. unfold App.src.
      now rewrite (auth_check_fails _ _ Hwrong).
  - intros Hempty. unfold Server.src. rewrite Hempty. reflexivity.
  - intros Hne. split.
    + intros H401 Heq.
      assert (Ha : authenticated (Server.TOKEN m) req) by (split; assumption).
      revert H401. enter_server Ha. repeat next_reply; discriminate.
    + intros Hwrong. unfold Server.src.
      now rewrite (auth_check_fails _ _ Hwrong).
Qed.

(** ** The order of the commands *)

Ltac in_order_with dest :=
  exists dest;
  first [ left; eexists; reflexivity | right; eexists; reflexivity ].

(** X3. The commands of a request, authenticated or not, are a
    beginning of the sequence fetch, status, pull, rev-parse, build, or
    of that sequence without the pull: no command is run twice, none out
    of this order, and there are five at most. *)
Theorem commands_follow_the_sequence `{Host} (req : Request) (w : World) :
  (forall m : App.Consts,
      let repo := JS.interp (env w !! "GIT_REPO_PATH") in
      exists dest,
        let build := Cmd.tar_app dest (Path.dirname (App.SRC_FOLDER m))
                       (Path.basename (App.SRC_FOLDER m)) in
        commands (trace (run (App.src m req) w))
          `prefix_of` [Cmd.fetch repo; Cmd.status repo;
                       Cmd.pull repo (App.BRANCH_NAME m);
                       Cmd.rev_parse repo; build]
        ∨ commands (trace (run (App.src m req) w))
          `prefix_of` [Cmd.fetch repo; Cmd.status repo;
                       Cmd.rev_parse repo; build])
  ∧
  (forall m : Server.Consts,
      let repo := Server.GIT_REPO_PATH m in
      exists name,
        let build := Cmd.tar_server repo name (Server.SRC_FOLDER m) in
        commands (trace (run (Server.src m req) w))
          `prefix_of` [Cmd.fetch repo; Cmd.status repo;
                       Cmd.pull repo (Server.BRANCH_NAME m);
                       Cmd.rev_parse repo; build]
        ∨ commands (trace (run (Server.src m req) w))
          `prefix_of` [Cmd.fetch repo; Cmd.status repo;
                       Cmd.rev_parse repo; build]).
Proof.
  split; intros m repo; subst repo; cbv zeta.
  - unfold App.src. destruct (negb _ || _); [in_order_with ""|].
    cbn. repeat next_reply;
      first [ in_order_with ""
            | eexists; first [ left; eexists; reflexivity
                             | right; eexists; reflexivity ] ].
  - unfold Server.src. destruct (negb _ || _); [in_order_with ""|].
    cbn. repeat next_reply;
      first [ in_order_with ""
            | eexists; first [ left; eexists; reflexivity
                             | right; eexists; reflexivity ] ].
Qed.

(** ** Success and failure *)

Ltac failed_call Hall :=
  match goal with
  | Hall : all_resolved ?t |- _ =>
      match t with
      | context [EvExec ?c (inl ?e)] =>
          let Hx := fresh in
          destruct (Hall c (inl e) ltac:(cbn; tauto)) as [? Hx];
          discriminate Hx
      end
  | Hall : all_removed ?t |- _ =>
      match t with
      | context [EvUnlink ?p (Some ?e)] =>
          let Hx := fresh in
          pose proof (Hall p (Some e) ltac:(cbn; tauto)) as Hx;
          discriminate Hx
      end
  end.

Ltac each_resolved :=
  intros ? ? Hin; cbn in Hin;
  repeat (destruct Hin as [Hin|Hin];
          [ first [ discriminate Hin
                  | injection Hin as <- <-; eexists; reflexivity
                  | injection Hin as <- <-; reflexivity ] | ]);
  destruct Hin.

(** X4. An authenticated request is answered with a download exactly
    when every command it ran resolved and, in [app.js], the removal of
    a stale file, if there was one, was not rejected. *)
Theorem download_iff_all_calls_resolved `{Host} (req : Request) (w : World) :
  (forall m : App.Consts,
      authenticated (App.TOKEN m) req ->
      let o := run (App.src m req) w in
      (exists path, result o = inr (Download path))
      <-> all_resolved (trace o) ∧ all_removed (trace o))
  ∧
  (forall m : Server.Consts,
      authenticated (Server.TOKEN m) req ->
      let o := run (Server.src m req) w in
      (exists path, result o = inr (Download path))
      <-> all_resolved (trace o)).
Proof.
  split; intros m Ha o; subst o.
  - enter_app Ha.
    repeat next_reply;
      (split;
       [ intros [path Hp]; first [ discriminate Hp
                                 | split; each_resolved ]
       | intros [Hall Hrm]; first [ eexists; reflexivity
                                  | failed_call Hall ] ]).
  - enter_server Ha.
    repeat next_reply;
      (split;
       [ intros [path Hp]; first [ discriminate Hp | each_resolved ]
       | intros Hall; first [ eexists; reflexivity | failed_call Hall ] ]).
Qed.

(** ** The archive, missing or stale *)

(** X5. In [server.js], when the existence check of an authenticated
    request is rejected, the check came right after [rev-parse]
    resolved, and the request writes "Creating tar file..." and runs the
    build for the name [src-<revision>.tar.gz], with the revision of
    that output, the path checked being that name joined to the working
    copy; if the build resolves, nothing follows it and the answer is
    the download of the path that was checked. *)
Theorem missing_archive_is_built `{Host}
    (m : Server.Consts) (req : Request) (w : World) :
  authenticated (Server.TOKEN m) req ->
  let repo := Server.GIT_REPO_PATH m in
  let o := run (Server.src m req) w in
  forall pre path e post,
    trace o = (pre ++ EvAccess path (Some e) :: post)%list ->
    exists pre' hashOutput r post',
      let name := "src-" ++ revision hashOutput ++ ".tar.gz" in
      pre = (pre' ++ [EvExec (Cmd.rev_parse repo) (inr hashOutput)])%list
      ∧ path = Path.join repo name
      ∧ post = EvConsole (Log "Creating tar file...")
               :: EvExec (Cmd.tar_server repo name (Server.SRC_FOLDER m)) r
               :: post'
      ∧ (forall out, r = inr out ->
           post' = [] ∧ result o = inr (Download path)).
Proof.
  intros Ha repo o pre path e post. subst o repo. enter_server Ha.
  repeat next_reply; intros Heq;
    locate Heq ltac:(
      rewrite ?gitHash_revision; cbv zeta;
      first [ eexists [_; _], _, _, _; split; [reflexivity|]
            | eexists [_; _; _; _], _, _, _; split; [reflexivity|] ];
      split; [reflexivity|]; split; [reflexivity|];
      intros ? Hr; first [ discriminate Hr | split; reflexivity ]).
Qed.

(** X6. In [app.js], a removal is made only right after an existence
    check that found a file, and on the path that was checked.  When the
    check finds a file the removal comes next; if it is rejected the
    request ends there with the error logged and the answer 500, without
    a build.  When the check finds nothing, no removal is made and the
    build comes next. *)
Theorem stale_archive_is_removed_first `{Host}
    (m : App.Consts) (req : Request) (w : World) :
  authenticated (App.TOKEN m) req ->
  let o := run (App.src m req) w in
  let build path := Cmd.tar_app path (Path.dirname (App.SRC_FOLDER m))
                      (Path.basename (App.SRC_FOLDER m)) in
  (forall pre path r post,
      trace o = (pre ++ EvAccess path r :: post)%list ->
      match r with
      | None =>
          exists u post',
            post = EvUnlink path u :: post'
            ∧ match u with
              | Some e => post' = [logged e]
                          ∧ result o = inr (Send 500 "Internal Server Error")
              | None => exists b post'', post' = EvExec (build path) b :: post''
              end
      | Some _ =>
          exists b post', post = EvExec (build path) b :: post'
      end)
  ∧
  (forall pre path u post,
      trace o = (pre ++ EvUnlink path u :: post)%list ->
      exists pre', pre = (pre' ++ [EvAccess path None])%list).
Proof.
  intros Ha o build. subst o build. cbv zeta. split.
  - intros pre path r post. enter_app Ha.
    repeat next_reply; intros Heq;
      locate Heq ltac:(
        first [ eexists _, _; split; [reflexivity|];
                first [ split; reflexivity | eexists _, _; reflexivity ]
              | eexists _, _; reflexivity ]).
  - intros pre path u post. enter_app Ha.
    repeat next_reply; intros Heq;
      locate Heq ltac:(
        first [ eexists [_; _; _; _; _]; reflexivity
              | eexists [_; _; _; _; _; _; _]; reflexivity ]).
Qed.

Ltac fresh_build :=
  split; [reflexivity|];
  split; [find_event|]; split; [find_event|reflexivity].

(** X7. [app.js] serves only what it has just built: when the answer is
    a download, the last call of the request is the build that resolved,
    its destination is the path served, and that path is
    [src-<revision>-<id>.tar.gz] in the temporary folder, with the
    revision the request resolved and the identifier it drew.  Nothing
    removes the archive afterwards. *)
Theorem download_is_freshly_built `{Host}
    (m : App.Consts) (req : Request) (w : World) (path : string) :
  authenticated (App.TOKEN m) req ->
  let o := run (App.src m req) w in
  result o = inr (Download path) ->
  exists pre out hashOutput id,
    trace o = (pre ++ [EvExec
                         (Cmd.tar_app path (Path.dirname (App.SRC_FOLDER m))
                            (Path.basename (App.SRC_FOLDER m)))
                         (inr out)])%list
    ∧ In (EvExec (Cmd.rev_parse (JS.interp (env w !! "GIT_REPO_PATH")))
            (inr hashOutput)) pre
    ∧ In (EvNanoid id) pre
    ∧ path = Path.join (App.tempFolder m)
               ("src-" ++ revision hashOutput ++ "-" ++ id ++ ".tar.gz").
Proof.
  intros Ha o. subst o. enter_app Ha.
  repeat next_reply; intros Hres;
    first [ discriminate Hres
          | injection Hres as <-; rewrite gitHash_revision;
            first [ eexists [_; _; _; _; _; _], _, _, _; fresh_build
                  | eexists [_; _; _; _; _; _; _], _, _, _; fresh_build
                  | eexists [_; _; _; _; _; _; _; _], _, _, _; fresh_build
                  | eexists [_; _; _; _; _; _; _; _; _], _, _, _; fresh_build ] ].
Qed.

(** ** The console and the file system *)

(** The last element of a list that is known, by itself. *)
Ltac but_last :=
  match goal with
  | |- exists _ _, ?l = _ => exists (removelast l); eexists; reflexivity
  end.

Ltac not_last Hend :=
  let pre := fresh "pre" in let e := fresh "e" in let Heq := fresh "Heq" in
  destruct Hend as (pre & e & Heq); exfalso;
  repeat (destruct pre as [|? pre]; cbn in Heq; [discriminate Heq|];
          injection Heq as _ Heq);
  destruct pre; discriminate Heq.

Ltac error_cause := first [ left; but_last | right; but_last ].

(** X8. For every request, to either variant: an error line on the
    console is the last call, it carries the error of the call just
    before it, and it is there exactly when the answer is 500. *)
Theorem error_line_iff_500 `{Host} (req : Request) (w : World) :
  (forall m : App.Consts,
      errors_are_logged_last (trace (run (App.src m req) w))
        (result (run (App.src m req) w)))
  ∧
  (forall m : Server.Consts,
      errors_are_logged_last (trace (run (Server.src m req) w))
        (result (run (Server.src m req) w))).
Proof.
  unfold errors_are_logged_last. split; intros m.
  - unfold App.src. destruct (negb _ || _); cbn.
    { split; [intros pre msg err post Heq; destruct pre; discriminate Heq|].
      split; [discriminate | intros Hend; not_last Hend]. }
    repeat next_reply;
      (split;
       [ intros pre msg err post Heq;
         locate Heq ltac:(split; [reflexivity|]; split; [reflexivity|];
                          error_cause)
       | split; [ intros Hres; first [ discriminate Hres | but_last ]
                | intros Hend; first [ reflexivity | not_last Hend ] ] ]).
  - unfold Server.src. destruct (negb _ || _); cbn.
    { split; [intros pre msg err post Heq; destruct pre; discriminate Heq|].
      split; [discriminate | intros Hend; not_last Hend]. }
    repeat next_reply;
      (split;
       [ intros pre msg err post Heq;
         locate Heq ltac:(split; [reflexivity|]; split; [reflexivity|];
                          error_cause)
       | split; [ intros Hres; first [ discriminate Hres | but_last ]
                | intros Hend; first [ reflexivity | not_last Hend ] ] ]).
Qed.

Ltac same_path :=
  first [ exists ""; intros p Hin; cbn in Hin; tauto
        | eexists; intros p Hin; cbn in Hin;
          repeat (destruct Hin as [<-|Hin]; [reflexivity|]); destruct Hin ].

(** X9. The file-system calls of a request all bear on one path: in
    [app.js] a name in the temporary folder, in [server.js] a name in
    the working copy.  [server.js] removes nothing, draws no identifier
    and reads no environment variable while it handles a request. *)
Theorem file_system_footprint `{Host} (req : Request) (w : World) :
  (forall m : App.Consts,
      exists name,
        forall path, In path (fs_paths (trace (run (App.src m req) w))) ->
                     path = Path.join (App.tempFolder m) name)
  ∧
  (forall m : Server.Consts,
      (exists name,
          forall path, In path (fs_paths (trace (run (Server.src m req) w))) ->
                       path = Path.join (Server.GIT_REPO_PATH m) name)
      ∧ forall ev, In ev (trace (run (Server.src m req) w)) ->
                   match ev with
                   | EvUnlink _ _ | EvNanoid _ | EvGetEnv _ _ => False
                   | _ => True
                   end).
Proof.
  split; intros m.
  - unfold App.src. destruct (negb _ || _); cbn; [same_path|].
    repeat next_reply; same_path.
  - unfold Server.src. destruct (negb _ || _); cbn.
    { split; [same_path | intros ev []]. }
    repeat next_reply;
      (split; [ same_path
              | intros ev Hin; cbn in Hin;
                repeat (destruct Hin as [<-|Hin]; [exact I|]); destruct Hin ]).
Qed.

(** ** The two variants side by side *)

Lemma is_git_git (rest : string) : is_git ("git -C " ++ rest) = true.
Proof. reflexivity. Qed.

Lemma is_git_tar (rest : string) : is_git ("tar -czf " ++ rest) = false.
Proof. reflexivity. Qed.

Lemma is_git_cd (rest : string) : is_git ("cd " ++ rest) = false.
Proof. reflexivity. Qed.

(** X10. The two variants synchronise alike: with the same secret and
    branch, and the environment naming the working copy [server.js]
    holds, a request run from the same state of the outside makes the
    same git commands in both and gets the same replies. *)
Theorem variants_synchronise_alike `{Host}
    (ma : App.Consts) (ms : Server.Consts) (req : Request)
    (e : gmap string string) (s : Sys) :
  App.TOKEN ma = Server.TOKEN ms ->
  App.BRANCH_NAME ma = Server.BRANCH_NAME ms ->
  e !! "GIT_REPO_PATH" = Some (Server.GIT_REPO_PATH ms) ->
  git_events (trace (run (App.src ma req) {| env := e; sys := s |}))
  = git_events (trace (run (Server.src ms req) {| env := e; sys := s |})).
Proof.
  intros Htoken Hbranch Hrepo. unfold App.src, Server.src.
  rewrite Htoken. destruct (negb _ || _); [reflexivity|].
  cbn. rewrite Hrepo, Hbranch. cbn.
  repeat next_reply; rewrite ?is_git_git, ?is_git_tar, ?is_git_cd;
    reflexivity.
Qed.

(** ** Starting up *)

Lemma truthy_iff (v : JS.value) :
  JS.truthy v = true <-> exists s, v = Some s ∧ s ≠ "".
Proof.
  split; [apply truthy_Some|]. intros (s & -> & Hne).
  destruct s; [congruence | reflexivity].
Qed.

Lemma truthy_nonempty (s : string) : s ≠ "" -> JS.truthy (Some s) = true.
Proof. destruct s; [congruence | reflexivity]. Qed.

(** X11. A module loads exactly when GIT_REPO_PATH, BRANCH_NAME,
    SRC_FOLDER and TOKEN are all set and none is empty, and it then
    holds the values of the environment: so [app.js] and [server.js]
    start on the same environments, and no loaded module has an empty
    secret, branch, folder or working-copy path. *)
Theorem load_iff_all_set (tmpdir : string) (e : gmap string string) :
  (forall m : App.Consts,
      App.load tmpdir e = Some m
      <-> (exists g, e !! "GIT_REPO_PATH" = Some g ∧ g ≠ "")
          ∧ e !! "BRANCH_NAME" = Some (App.BRANCH_NAME m)
          ∧ App.BRANCH_NAME m ≠ ""
          ∧ e !! "SRC_FOLDER" = Some (App.SRC_FOLDER m)
          ∧ App.SRC_FOLDER m ≠ ""
          ∧ e !! "TOKEN" = Some (App.TOKEN m) ∧ App.TOKEN m ≠ ""
          ∧ App.tempFolder m = tmpdir)
  ∧
  (forall m : Server.Consts,
      Server.load e = Some m
      <-> e !! "GIT_REPO_PATH" = Some (Server.GIT_REPO_PATH m)
          ∧ Server.GIT_REPO_PATH m ≠ ""
          ∧ e !! "BRANCH_NAME" = Some (Server.BRANCH_NAME m)
          ∧ Server.BRANCH_NAME m ≠ ""
          ∧ e !! "SRC_FOLDER" = Some (Server.SRC_FOLDER m)
          ∧ Server.SRC_FOLDER m ≠ ""
          ∧ e !! "TOKEN" = Some (Server.TOKEN m) ∧ Server.TOKEN m ≠ "")
  ∧
  ((exists m, App.load tmpdir e = Some m)
   <-> (exists m, Server.load e = Some m)).
Proof.
  assert (Happ : forall m : App.Consts,
      App.load tmpdir e = Some m
      <-> (exists g, e !! "GIT_REPO_PATH" = Some g ∧ g ≠ "")
          ∧ e !! "BRANCH_NAME" = Some (App.BRANCH_NAME m)
          ∧ App.BRANCH_NAME m ≠ ""
          ∧ e !! "SRC_FOLDER" = Some (App.SRC_FOLDER m)
          ∧ App.SRC_FOLDER m ≠ ""
          ∧ e !! "TOKEN" = Some (App.TOKEN m) ∧ App.TOKEN m ≠ ""
          ∧ App.tempFolder m = tmpdir).
  { intros m. unfold App.load, App.requiredEnvVars. cbn [List.filter]. split.
    - destruct (JS.truthy (e !! "GIT_REPO_PATH")) eqn:Hg; cbn; try discriminate.
      destruct (JS.truthy (e !! "BRANCH_NAME")) eqn:Hb; cbn; try discriminate.
      destruct (JS.truthy (e !! "SRC_FOLDER")) eqn:Hs; cbn; try discriminate.
      destruct (JS.truthy (e !! "TOKEN")) eqn:Ht; cbn; try discriminate.
      apply truthy_Some in Hg as (g & Hg & Hgne).
      apply truthy_Some in Hb as (b & Hb & Hbne).
      apply truthy_Some in Hs as (s & Hs & Hsne).
      apply truthy_Some in Ht as (t & Ht & Htne).
      rewrite Hb, Hs, Ht. intros [= <-]. cbn. eauto 10.
    - intros ((g & Hg & Hgne) & Hb & Hbne & Hs & Hsne & Ht & Htne & Htmp).
      rewrite Hg, Hb, Hs, Ht.
      rewrite !truthy_nonempty by assumption. cbn.
      destruct m; cbn in *; subst; reflexivity. }
  assert (Hsrv : forall m : Server.Consts,
      Server.load e = Some m
      <-> e !! "GIT_REPO_PATH" = Some (Server.GIT_REPO_PATH m)
          ∧ Server.GIT_REPO_PATH m ≠ ""
          ∧ e !! "BRANCH_NAME" = Some (Server.BRANCH_NAME m)
          ∧ Server.BRANCH_NAME m ≠ ""
          ∧ e !! "SRC_FOLDER" = Some (Server.SRC_FOLDER m)
          ∧ Server.SRC_FOLDER m ≠ ""
          ∧ e !! "TOKEN" = Some (Server.TOKEN m) ∧ Server.TOKEN m ≠ "").
  { intros m. unfold Server.load. split.
    - destruct (JS.truthy (e !! "GIT_REPO_PATH")) eqn:Hg; cbn; try discriminate.
      destruct (JS.truthy (e !! "BRANCH_NAME")) eqn:Hb; cbn; try discriminate.
      destruct (JS.truthy (e !! "SRC_FOLDER")) eqn:Hs; cbn; try discriminate.
      destruct (JS.truthy (e !! "TOKEN")) eqn:Ht; cbn; try discriminate.
      apply truthy_Some in Hg as (g & Hg & Hgne).
      apply truthy_Some in Hb as (b & Hb & Hbne).
      apply truthy_Some in Hs as (s & Hs & Hsne).
      apply truthy_Some in Ht as (t & Ht & Htne).
      rewrite Hg, Hb, Hs, Ht. intros [= <-]. cbn. auto 10.
    - intros (Hg & Hgne & Hb & Hbne & Hs & Hsne & Ht & Htne).
      rewrite Hg, Hb, Hs, Ht.
      rewrite !truthy_nonempty by assumption. cbn.
      destruct m; reflexivity. }
  split; [exact Happ|]. split; [exact Hsrv|]. split.
  - intros [m Hm]. apply Happ in Hm
      as ((g & Hg & Hgne) & Hb & Hbne & Hs & Hsne & Ht & Htne & _).
    exists {| Server.GIT_REPO_PATH := g;
              Server.BRANCH_NAME := App.BRANCH_NAME m;
              Server.SRC_FOLDER := App.SRC_FOLDER m;
              Server.TOKEN := App.TOKEN m |}.
    apply Hsrv. cbn. auto 10.
  - intros [m Hm]. apply Hsrv in Hm
      as (Hg & Hgne & Hb & Hbne & Hs & Hsne & Ht & Htne).
    exists {| App.tempFolder := tmpdir;
              App.BRANCH_NAME := Server.BRANCH_NAME m;
              App.SRC_FOLDER := Server.SRC_FOLDER m;
              App.TOKEN := Server.TOKEN m |}.
    apply Happ. cbn. eauto 10.
Qed.

(** X12. [app.js] exits, with code 1, exactly when the list of missing
    variables is not empty; the line it writes is "Missing required
    environment variables: " followed by that list, joined by ", "; and
    a name is on the list exactly when it is one of the four required
    ones and the variable is unset or empty. *)
Theorem exit_names_the_missing (tmpdir : string) (e : gmap string string) :
  match Startup.app_main tmpdir e with
  | Startup.Exited code message =>
      code = 1 ∧ Startup.missingEnvVars e ≠ []
      ∧ message = "Missing required environment variables: "
                  ++ String.concat ", " (Startup.missingEnvVars e)
  | Startup.Running m _ =>
      Startup.missingEnvVars e = [] ∧ App.load tmpdir e = Some m
  end
  ∧ forall key,
      In key (Startup.missingEnvVars e)
      <-> In key App.requiredEnvVars ∧ (e !! key = None ∨ e !! key = Some "").
Proof.
  split.
  - unfold Startup.app_main.
    destruct (App.load tmpdir e) as [m|] eqn:Hload.
    + split; [|reflexivity].
      revert Hload.
      unfold Startup.missingEnvVars, App.load, App.requiredEnvVars.
      cbn [List.filter].
      destruct (JS.truthy (e !! "GIT_REPO_PATH")),
               (JS.truthy (e !! "BRANCH_NAME")),
               (JS.truthy (e !! "SRC_FOLDER")),
               (JS.truthy (e !! "TOKEN")); cbn; (reflexivity || discriminate).
    + split; [reflexivity|]. split; [|reflexivity].
      revert Hload.
      unfold Startup.missingEnvVars, App.load, App.requiredEnvVars.
      cbn [List.filter].
      destruct (JS.truthy (e !! "GIT_REPO_PATH")) eqn:Hg,
               (JS.truthy (e !! "BRANCH_NAME")) eqn:Hb,
               (JS.truthy (e !! "SRC_FOLDER")) eqn:Hs,
               (JS.truthy (e !! "TOKEN")) eqn:Ht; cbn; try discriminate.
      apply truthy_Some in Hb as (b & -> & _).
      apply truthy_Some in Hs as (s & -> & _).
      apply truthy_Some in Ht as (t & -> & _). discriminate.
  - intros key. unfold Startup.missingEnvVars. rewrite filter_In.
    split; intros [Hin Hv]; (split; [exact Hin|]).
    + destruct (e !! key) as [[|? ?]|]; cbn in Hv; auto; discriminate.
    + destruct Hv as [-> | ->]; reflexivity.
Qed.

(** X13. The module [app.js] listens exactly when NODE_ENV is not
    [test]; the persistent [server.js] always listens once loaded.  The
    address is never empty: an unset or empty HOST gives [127.0.0.1], an
    unset or empty PORT gives the number 3000, any other value is taken
    as it is. *)
Theorem listening_and_defaults (tmpdir : string) (e : gmap string string) :
  (forall m l,
      Startup.app_main tmpdir e = Startup.Running m l ->
      (l = None <-> e !! "NODE_ENV" = Some "test")
      ∧ (e !! "NODE_ENV" ≠ Some "test" ->
         l = Some {| Startup.on_port := Startup.port e;
                     Startup.on_host := Startup.host e |}))
  ∧
  (forall m l,
      Startup.server_main e = Startup.Running m l ->
      l = Some {| Startup.on_port := Startup.port e;
                  Startup.on_host := Startup.host e |})
  ∧ Startup.host e ≠ ""
  ∧ Startup.port e ≠ Startup.PortText ""
  ∧ (e !! "HOST" = None ∨ e !! "HOST" = Some "" ->
     Startup.host e = "127.0.0.1")
  ∧ (e !! "PORT" = None ∨ e !! "PORT" = Some "" ->
     Startup.port e = Startup.PortNumber 3000)
  ∧ (forall s, s ≠ "" -> e !! "HOST" = Some s -> Startup.host e = s)
  ∧ (forall s, s ≠ "" -> e !! "PORT" = Some s ->
               Startup.port e = Startup.PortText s).
Proof.
  split; [|split; [|split; [|split; [|split; [|split; [|split]]]]]].
  - intros m l. unfold Startup.app_main.
    destruct (App.load tmpdir e); [|discriminate].
    intros [= _ <-]. destruct (e !! "NODE_ENV") as [v|]; cbn.
    + destruct (String.eqb_spec v "test") as [->|Hne]; cbn.
      * split; [tauto | congruence].
      * split; [split; [discriminate | congruence] | reflexivity].
    + split; [split; discriminate | reflexivity].
  - intros m l. unfold Startup.server_main.
    destruct (Server.load e); [|discriminate]. now intros [= _ <-].
  - unfold Startup.host. destruct (e !! "HOST") as [[|c s]|]; cbn; discriminate.
  - unfold Startup.port. destruct (e !! "PORT") as [[|c s]|]; cbn; discriminate.
  - unfold Startup.host. intros [-> | ->]; reflexivity.
  - unfold Startup.port. intros [-> | ->]; reflexivity.
  - intros s Hne Hs. unfold Startup.host. rewrite Hs.
    now rewrite truthy_nonempty.
  - intros s Hne Hs. unfold Startup.port. rewrite Hs.
    now rewrite truthy_nonempty.
Qed.

(** ** The string tests of the handlers *)

Lemma startsWith_iff (s prefix : string) :
  JS.startsWith s prefix = true <-> exists post, s = prefix ++ post.
Proof.
  revert s. induction prefix as [|a prefix IH]; intros s; cbn.
  - split; [intros _; exists s; reflexivity | reflexivity].
  - destruct s as [|b s].
    + split; [discriminate | intros [post Hp]; discriminate Hp].
    + rewrite andb_true_iff, IH. split.
      * intros [Hab [post ->]]. apply Ascii.eqb_eq in Hab as ->.
        exists post. reflexivity.
      * intros [post [= -> ->]]. split; [apply Ascii.eqb_refl | eauto].
Qed.

(** X14. The test made on the status text, [includes], holds exactly
    when the phrase occurs somewhere in the text, whatever comes before
    and after it. *)
Theorem includes_iff_occurs (hay needle : string) :
  JS.includes hay needle = true
  <-> exists pre post, hay = pre ++ needle ++ post.
Proof.
  induction hay as [|c hay IH]; cbn [JS.includes].
  - rewrite orb_false_r, startsWith_iff. split.
    + intros [post Hp]. exists "", post. exact Hp.
    + intros (pre & post & Hp). destruct pre; cbn in Hp; [eauto|discriminate].
  - rewrite orb_true_iff, startsWith_iff, IH. split.
    + intros [[post Hp] | (pre & post & ->)].
      * exists "", post. exact Hp.
      * exists (String c pre), post. reflexivity.
    + intros (pre & post & Hp). destruct pre as [|c' pre]; cbn in Hp.
      * left. eauto.
      * right. injection Hp as _ ->. eauto.
Qed.

Lemma append_cons (c : ascii) (a b : string) :
  String c a ++ b = String c (a ++ b).
Proof. reflexivity. Qed.

Lemma trimStart_white (ws s : string) :
  all_white ws = true -> JS.trimStart (ws ++ s) = JS.trimStart s.
Proof.
  induction ws as [|c ws IH]; cbn; [reflexivity|].
  intros [Hc Hws]%andb_true_iff. rewrite append_cons. cbn.
  rewrite Hc. auto.
Qed.

Lemma trimStart_all_white (ws : string) :
  all_white ws = true -> JS.trimStart ws = "".
Proof.
  induction ws as [|c ws IH]; cbn; [reflexivity|].
  intros [Hc Hws]%andb_true_iff. rewrite Hc. auto.
Qed.

Lemma trimEnd_white (ws : string) : all_white ws = true -> JS.trimEnd ws = "".
Proof.
  induction ws as [|c ws IH]; cbn; [reflexivity|].
  intros [Hc Hws]%andb_true_iff. rewrite IH by assumption. now rewrite Hc.
Qed.

Lemma trimEnd_core (core ws : string) :
  no_white core = true -> all_white ws = true ->
  JS.trimEnd (core ++ ws) = core.
Proof.
  intros Hcore Hws. induction core as [|c core IH]; cbn.
  - now apply trimEnd_white.
  - cbn in Hcore. apply andb_true_iff in Hcore as [Hc Hcore].
    rewrite append_cons. cbn.
    rewrite IH by assumption. destruct core; [|reflexivity].
    apply negb_true_iff in Hc. now rewrite Hc.
Qed.

Lemma trimStart_core (core s : string) :
  no_white core = true -> core ≠ "" -> JS.trimStart (core ++ s) = core ++ s.
Proof.
  destruct core as [|c core]; [congruence|]. cbn.
  intros [Hc _]%andb_true_iff _. apply negb_true_iff in Hc.
  rewrite append_cons. cbn. now rewrite Hc.
Qed.

(** X15. White space around the identifier that [rev-parse] prints, such
    as the line feed that ends it, does not reach the revision: for a
    text without white space in it, surrounded by white space, the
    revision is made of the first seven characters of that text. *)
Theorem revision_ignores_surrounding_space (before hash after : string) :
  all_white before = true -> no_white hash = true -> all_white after = true ->
  revision (before ++ hash ++ after) = JS.take 7 hash.
Proof.
  intros Hb Hh Ha. unfold revision, JS.trim. f_equal.
  rewrite trimStart_white by assumption.
  destruct hash as [|c hash].
  - change ("" ++ after) with after.
    now rewrite trimStart_all_white by assumption.
  - rewrite trimStart_core by (assumption || discriminate).
    now apply trimEnd_core.
Qed.

(** ** Parent directory and base name *)

Lemma chars_app (a b : string) :
  list_ascii_of_string (a ++ b)
  = (list_ascii_of_string a ++ list_ascii_of_string b)%list.
Proof.
  induction a as [|c a IH]; [reflexivity|].
  rewrite append_cons. cbn [list_ascii_of_string app]. now rewrite IH.
Qed.

Lemma chars_plain (s : string) :
  JS.includes s "/" = false -> Forall plain (list_ascii_of_string s).
Proof.
  induction s as [|c s IH]; cbn [JS.includes JS.startsWith list_ascii_of_string].
  - constructor.
  - intros [Hc Hs]%orb_false_iff. constructor; [|auto].
    unfold plain, Path.is_sep. rewrite Ascii.eqb_sym.
    destruct (Ascii.eqb "/" c); [discriminate Hc | reflexivity].
Qed.

Lemma drop_sep_plain (l rest : list ascii) :
  Forall plain l -> l ≠ [] ->
  Path.drop_while Path.is_sep (l ++ rest) = (l ++ rest)%list.
Proof.
  intros Hl Hne. destruct Hl as [|c l Hc Hl]; [congruence|].
  cbn. unfold plain in Hc. now rewrite Hc.
Qed.

Lemma drop_plain (l rest : list ascii) :
  Forall plain l ->
  Path.drop_while Path.non_sep (l ++ "/"%char :: rest) = "/"%char :: rest.
Proof.
  induction 1 as [|c l Hc _ IH]; cbn; [reflexivity|].
  unfold Path.non_sep at 1. unfold plain in Hc. now rewrite Hc.
Qed.

Lemma drop_plain_all (l : list ascii) :
  Forall plain l -> Path.drop_while Path.non_sep l = [].
Proof.
  induction 1 as [|c l Hc _ IH]; cbn; [reflexivity|].
  unfold Path.non_sep at 1. unfold plain in Hc. now rewrite Hc.
Qed.

Lemma take_plain (l rest : list ascii) :
  Forall plain l ->
  Path.take_while Path.non_sep (l ++ "/"%char :: rest) = l.
Proof.
  induction 1 as [|c l Hc _ IH]; cbn; [reflexivity|].
  unfold Path.non_sep at 1. unfold plain in Hc. rewrite Hc. cbn.
  now rewrite IH.
Qed.

Lemma take_plain_all (l : list ascii) :
  Forall plain l -> Path.take_while Path.non_sep l = l.
Proof.
  induction 1 as [|c l Hc _ IH]; cbn; [reflexivity|].
  unfold Path.non_sep at 1. unfold plain in Hc. rewrite Hc. cbn.
  now rewrite IH.
Qed.

Lemma drop_sep_plain_all (l : list ascii) :
  Forall plain l -> Path.drop_while Path.is_sep l = l.
Proof.
  destruct 1 as [|c l Hc _]; cbn; [reflexivity|].
  unfold plain in Hc. now rewrite Hc.
Qed.

Lemma chars_nonempty (s : string) : s ≠ "" -> list_ascii_of_string s ≠ [].
Proof. destruct s; [congruence | discriminate]. Qed.

Lemma rev_nonempty {A : Type} (l : list A) : l ≠ [] -> rev l ≠ [].
Proof.
  destruct l as [|x l]; [congruence|]. cbn. intros _ Hnil.
  apply app_eq_nil in Hnil as [_ Hx]. discriminate Hx.
Qed.

Lemma basename_plain (s : string) :
  JS.includes s "/" = false -> Path.basename s = s.
Proof.
  intros Hs%chars_plain. apply List.Forall_rev in Hs.
  unfold Path.basename. rewrite drop_sep_plain_all by assumption.
  rewrite take_plain_all by assumption.
  rewrite List.rev_involutive. apply string_of_list_ascii_of_string.
Qed.

Lemma dirname_plain (s : string) :
  JS.includes s "/" = false -> s ≠ "" -> Path.dirname s = ".".
Proof.
  intros Hs%chars_plain Hne. unfold Path.dirname.
  destruct s as [|c0 rest]; [congruence|].
  cbn [list_ascii_of_string]. cbn in Hs.
  inversion Hs as [|? ? Hc0 Hrest]; subst.
  apply List.Forall_rev in Hrest.
  rewrite drop_sep_plain_all by assumption.
  rewrite drop_plain_all by assumption.
  unfold plain in Hc0. now rewrite Hc0.
Qed.

Lemma basename_child (dir base : string) :
  JS.includes base "/" = false -> base ≠ "" ->
  Path.basename (dir ++ "/" ++ base) = base.
Proof.
  intros Hb%chars_plain Hne. apply List.Forall_rev in Hb.
  unfold Path.basename.
  rewrite !chars_app. cbn [list_ascii_of_string app].
  rewrite List.rev_app_distr. cbn [rev]. rewrite <- app_assoc. cbn [app].
  rewrite drop_sep_plain
    by (try assumption; now apply rev_nonempty, chars_nonempty).
  rewrite take_plain by assumption.
  rewrite List.rev_involutive. apply string_of_list_ascii_of_string.
Qed.

Lemma dirname_root_child (base : string) :
  JS.includes base "/" = false -> Path.dirname ("/" ++ base) = "/".
Proof.
  intros Hb%chars_plain. apply List.Forall_rev in Hb.
  unfold Path.dirname.
  change (list_ascii_of_string ("/" ++ base))
    with ("/"%char :: list_ascii_of_string base).
  cbv iota beta.
  rewrite drop_sep_plain_all by assumption.
  rewrite drop_plain_all by assumption. reflexivity.
Qed.

Lemma dirname_child (dir base : string) :
  JS.includes base "/" = false -> base ≠ "" ->
  dir ≠ "" -> dir ≠ "/" ->
  Path.dirname (dir ++ "/" ++ base) = dir.
Proof.
  intros Hb%chars_plain Hne Hd Hroot. apply List.Forall_rev in Hb.
  unfold Path.dirname. rewrite chars_app.
  destruct dir as [|c0 dir']; [congruence|].
  cbn [list_ascii_of_string app]. cbv iota beta.
  rewrite chars_app. cbn [list_ascii_of_string app].
  rewrite List.rev_app_distr. cbn [rev]. rewrite <- app_assoc. cbn [app].
  rewrite drop_sep_plain
    by (try assumption; now apply rev_nonempty, chars_nonempty).
  rewrite drop_plain by assumption.
  rewrite List.rev_involutive.
  destruct (Path.is_sep c0) eqn:Hc0; cbn [andb].
  - destruct dir' as [|c1 dir'].
    + exfalso. apply Hroot. unfold Path.is_sep in Hc0.
      apply Ascii.eqb_eq in Hc0. now subst.
    + rewrite length_rev. cbn [list_ascii_of_string length Nat.eqb].
      cbn. now rewrite string_of_list_ascii_of_string.
  - cbn. now rewrite string_of_list_ascii_of_string.
Qed.

(** X16. Parent directory and base name take a path apart at its last
    separator: for a base without separator, not empty, the path
    [dir/base] has parent [dir] and base name [base] (the parent of
    [/base] is [/]), so that parent, separator and base name give the
    path back; a name without separator is its own base name, and its
    parent is [.]. *)
Theorem parent_and_base_name (dir base : string) :
  JS.includes base "/" = false ->
  base ≠ "" ->
  Path.basename base = base
  ∧ Path.dirname base = "."
  ∧ Path.dirname ("/" ++ base) = "/"
  ∧ Path.basename ("/" ++ base) = base
  ∧ (dir ≠ "" -> dir ≠ "/" ->
     Path.dirname (dir ++ "/" ++ base) = dir
     ∧ Path.basename (dir ++ "/" ++ base) = base
     ∧ Path.dirname (dir ++ "/" ++ base) ++ "/"
       ++ Path.basename (dir ++ "/" ++ base)
       = dir ++ "/" ++ base).
Proof.
  intros Hb Hne.
  split; [now apply basename_plain|].
  split; [now apply dirname_plain|].
  split; [now apply dirname_root_child|].
  split; [exact (basename_child "" base Hb Hne)|].
  intros Hd Hroot.
  rewrite dirname_child, basename_child by assumption. auto.
Qed.

(** X17. When SRC_FOLDER is a plain name (no separator, not empty), the
    build of [app.js] is [tar -czf <path> -C . <SRC_FOLDER>]: the folder
    is looked up in the directory the process runs in, and the working
    copy the git commands were given is not named. *)
Theorem plain_folder_is_taken_from_cwd `{Host}
    (m : App.Consts) (req : Request) (w : World) :
  authenticated (App.TOKEN m) req ->
  JS.includes (App.SRC_FOLDER m) "/" = false ->
  App.SRC_FOLDER m ≠ "" ->
  forall pre path r post,
    trace (run (App.src m req) w) = (pre ++ EvAccess path r :: post)%list ->
    forall cmd, In cmd (commands post) ->
      cmd = "tar -czf " ++ path ++ " -C . " ++ App.SRC_FOLDER m.
Proof.
  intros Ha Hplain Hne pre path r post.
  enter_app Ha.
  rewrite (dirname_plain _ Hplain Hne), (basename_plain _ Hplain).
  repeat next_reply; intros Heq;
    locate Heq ltac:(
      intros cmd Hin; cbn in Hin;
      repeat (destruct Hin as [Hin|Hin]; [subst cmd; reflexivity|]);
      destruct Hin).
Qed.

(** ** The name of the file that is served *)

Lemma split_acc_plain (n cur : list ascii) :
  Forall plain n -> Path.split_acc cur n = [(rev cur ++ n)%list].
Proof.
  intros Hn. revert cur.
  induction Hn as [|c n Hc _ IH]; intros cur; cbn.
  - now rewrite app_nil_r.
  - unfold plain in Hc. rewrite Hc, IH. cbn. now rewrite <- app_assoc.
Qed.

Lemma split_acc_sep (l cur : list ascii) :
  exists front, forall n,
    Path.split_acc cur (l ++ "/"%char :: n)
    = (front ++ Path.split_acc [] n)%list.
Proof.
  revert cur. induction l as [|c l IH]; intros cur.
  - exists [rev cur]. intros n. reflexivity.
  - cbn. destruct (Path.is_sep c).
    + destruct (IH []) as [front Hfront].
      exists (rev cur :: front). intros n. now rewrite Hfront.
    + apply IH.
Qed.

Lemma resolve_app (above : bool) (s1 : list (list ascii)) :
  forall stack, exists stack', forall s2,
    Path.resolve above stack (s1 ++ s2) = Path.resolve above stack' s2.
Proof.
  induction s1 as [|seg s1 IH]; intros stack.
  - exists stack. reflexivity.
  - cbn [app Path.resolve].
    destruct seg as [|c seg]; [apply IH|].
    destruct (Path.is_dot (c :: seg)); [apply IH|].
    destruct (Path.is_dotdot (c :: seg)); [|apply IH].
    destruct stack as [|top below].
    + destruct above; apply IH.
    + destruct (Path.is_dotdot top); apply IH.
Qed.

Lemma resolve_last (above : bool) (stack : list (list ascii)) (n : list ascii) :
  n ≠ [] -> Path.is_dot n = false -> Path.is_dotdot n = false ->
  Path.resolve above stack [n] = (rev stack ++ [n])%list.
Proof.
  intros Hne Hdot Hdd. cbn [Path.resolve]. rewrite Hdot, Hdd.
  destruct n; [congruence | reflexivity].
Qed.

Lemma unsplit_last (l : list (list ascii)) (n : list ascii) :
  exists pre, Path.unsplit (l ++ [n]) = (pre ++ n)%list ∧ closed pre.
Proof.
  induction l as [|seg l (pre & Hpre & Hclosed)].
  - exists []. split; [reflexivity | now left].
  - exists (seg ++ "/"%char :: pre)%list. split.
    + cbn [app Path.unsplit]. rewrite Hpre.
      destruct (l ++ [n])%list eqn:E.
      * apply app_eq_nil in E as [_ E]. discriminate E.
      * now rewrite <- app_assoc.
    + right. destruct Hclosed as [->|[p ->]].
      * now exists seg.
      * exists (seg ++ "/"%char :: p)%list. now rewrite <- app_assoc.
Qed.

Lemma last_is_plain (front n : list ascii) :
  Forall plain n -> n ≠ [] ->
  match rev (front ++ n) with
  | c :: _ => Path.is_sep c
  | [] => false
  end = false.
Proof.
  intros Hn Hne. rewrite List.rev_app_distr.
  apply List.Forall_rev in Hn. apply rev_nonempty in Hne.
  destruct Hn as [|c l Hc _]; [congruence | exact Hc].
Qed.

Lemma basename_closed (pre n : list ascii) :
  closed pre -> Forall plain n -> n ≠ [] ->
  Path.basename (string_of_list_ascii (pre ++ n)) = string_of_list_ascii n.
Proof.
  intros Hclosed Hn Hne. unfold Path.basename.
  rewrite list_ascii_of_string_of_list_ascii, List.rev_app_distr.
  apply List.Forall_rev in Hn. apply rev_nonempty in Hne.
  destruct Hclosed as [->|[p ->]].
  - cbn [rev]. rewrite app_nil_r.
    rewrite drop_sep_plain_all, take_plain_all by assumption.
    now rewrite List.rev_involutive.
  - rewrite List.rev_app_distr. cbn [rev app].
    rewrite drop_sep_plain, take_plain by assumption.
    now rewrite List.rev_involutive.
Qed.

(** The last portion of a normalized path that ends with a plain name,
    other than [.] and [..], is that name. *)
Lemma basename_normalize (front n : list ascii) :
  (front = [] ∨ exists f, front = (f ++ ["/"%char])%list) ->
  Forall plain n -> n ≠ [] ->
  Path.is_dot n = false -> Path.is_dotdot n = false ->
  Path.basename (Path.normalize (string_of_list_ascii (front ++ n)))
  = string_of_list_ascii n.
Proof.
  intros Hfront Hn Hne Hdot Hdd. unfold Path.normalize.
  rewrite list_ascii_of_string_of_list_ascii.
  destruct (front ++ n)%list as [|c0 cs] eqn:Hall.
  { apply app_eq_nil in Hall as [_ ->]. congruence. }
  cbv zeta. rewrite <- Hall.
  rewrite (last_is_plain front n Hn Hne).
  assert (Hsplit : exists segs, Path.split (front ++ n) = (segs ++ [n])%list).
  { unfold Path.split. destruct Hfront as [->|[f ->]].
    - exists []. cbn [app]. now rewrite split_acc_plain.
    - destruct (split_acc_sep f []) as [segs Hsegs].
      exists segs. rewrite <- app_assoc. cbn [app].
      now rewrite Hsegs, split_acc_plain. }
  destruct Hsplit as [segs ->].
  destruct (resolve_app (negb (Path.is_sep c0)) segs []) as [stack ->].
  rewrite resolve_last by assumption.
  destruct (unsplit_last (rev stack) n) as (pre & -> & Hclosed).
  destruct (pre ++ n)%list as [|b0 bs] eqn:Hbody.
  { apply app_eq_nil in Hbody as [_ ->]. congruence. }
  rewrite <- Hbody.
  destruct (Path.is_sep c0).
  - change ("/"%char :: pre ++ n)%list with (("/"%char :: pre) ++ n)%list.
    apply basename_closed; [|assumption..].
    right. destruct Hclosed as [->|[p ->]]; [now exists [] | now exists ("/"%char :: p)].
  - now apply basename_closed.
Qed.

Lemma string_of_chars_app (a b : string) :
  string_of_list_ascii (list_ascii_of_string a ++ list_ascii_of_string b)
  = a ++ b.
Proof. now rewrite <- chars_app, string_of_list_ascii_of_string. Qed.

(** [basename(join(dir, name)) = name] for a plain name other than [.]
    and [..], whatever the folder. *)
Lemma basename_join (dir name : string) :
  Forall plain (list_ascii_of_string name) ->
  Path.is_dot (list_ascii_of_string name) = false ->
  Path.is_dotdot (list_ascii_of_string name) = false ->
  name ≠ "" ->
  Path.basename (Path.join dir name) = name.
Proof.
  intros Hn Hdot Hdd Hne.
  pose proof (chars_nonempty _ Hne) as Hne'.
  unfold Path.join. destruct dir as [|d0 dir], name as [|n0 name];
    try congruence.
  - pose proof (basename_normalize [] _ (or_introl eq_refl) Hn Hne' Hdot Hdd)
      as Hb.
    cbn [app] in Hb. now rewrite string_of_list_ascii_of_string in Hb.
  - set (d := String d0 dir) in *. set (n := String n0 name) in *.
    pose proof (basename_normalize
                  (list_ascii_of_string d ++ ["/"%char]) _
                  (or_intror (ex_intro _ _ eq_refl)) Hn Hne' Hdot Hdd) as Hb.
    rewrite <- app_assoc in Hb. cbn [app] in Hb.
    change ("/"%char :: list_ascii_of_string n)
      with (list_ascii_of_string ("/" ++ n)) in Hb.
    rewrite string_of_chars_app in Hb.
    now rewrite string_of_list_ascii_of_string in Hb.
Qed.

Lemma plain_app_chars (a b : string) :
  Forall plain (list_ascii_of_string a) ->
  Forall plain (list_ascii_of_string b) ->
  Forall plain (list_ascii_of_string (a ++ b)).
Proof. intros Ha Hb. rewrite chars_app. now apply Forall_app. Qed.

Lemma archive_name_is_plain (rest : string) :
  Forall plain (list_ascii_of_string rest) ->
  let name := "src-" ++ rest in
  Forall plain (list_ascii_of_string name)
  ∧ Path.is_dot (list_ascii_of_string name) = false
  ∧ Path.is_dotdot (list_ascii_of_string name) = false
  ∧ name ≠ "".
Proof.
  intros Hm. cbv zeta. split; [|split; [|split]]; try reflexivity;
    [|discriminate].
  apply (plain_app_chars "src-"); [repeat constructor | assumption].
Qed.

Lemma app_download_path `{Host}
    (m : App.Consts) (req : Request) (w : World)
    (pre post : list Event) (hashOutput id path : string) :
  authenticated (App.TOKEN m) req ->
  trace (run (App.src m req) w)
  = (pre ++ EvExec (Cmd.rev_parse (JS.interp (env w !! "GIT_REPO_PATH")))
              (inr hashOutput) :: EvNanoid id :: post)%list ->
  result (run (App.src m req) w) = inr (Download path) ->
  path = Path.join (App.tempFolder m)
           ("src-" ++ revision hashOutput ++ "-" ++ id ++ ".tar.gz").
Proof.
  intros Ha. enter_app Ha.
  repeat next_reply; intros Heq Hres;
    first [ discriminate Hres
          | injection Hres as <-;
            locate Heq ltac:(first [ absurd_command
                                   | rewrite gitHash_revision; reflexivity ]) ].
Qed.

Lemma server_download_path `{Host}
    (m : Server.Consts) (req : Request) (w : World)
    (pre post : list Event) (hashOutput path : string) :
  authenticated (Server.TOKEN m) req ->
  trace (run (Server.src m req) w)
  = (pre ++ EvExec (Cmd.rev_parse (Server.GIT_REPO_PATH m))
              (inr hashOutput) :: post)%list ->
  result (run (Server.src m req) w) = inr (Download path) ->
  path = Path.join (Server.GIT_REPO_PATH m)
           ("src-" ++ revision hashOutput ++ ".tar.gz").
Proof.
  intros Ha. enter_server Ha.
  repeat next_reply; intros Heq Hres;
    first [ discriminate Hres
          | injection Hres as <-;
            locate Heq ltac:(first [ absurd_command
                                   | rewrite gitHash_revision; reflexivity ]) ].
Qed.

(** X18. The file a download serves bears the name the request made up,
    whatever the folder it lies in and however that folder is written:
    when the revision holds no separator (and, in [app.js], neither does
    the identifier drawn), the last portion of the path served is
    [src-<revision>-<id>.tar.gz] in [app.js] and [src-<revision>.tar.gz]
    in [server.js]. *)
Theorem download_keeps_its_name `{Host} (req : Request) (w : World)
    (hashOutput path : string) :
  (forall m : App.Consts,
      authenticated (App.TOKEN m) req ->
      forall pre id post,
        trace (run (App.src m req) w)
        = (pre ++ EvExec (Cmd.rev_parse (JS.interp (env w !! "GIT_REPO_PATH")))
                    (inr hashOutput) :: EvNanoid id :: post)%list ->
        result (run (App.src m req) w) = inr (Download path) ->
        JS.includes (revision hashOutput) "/" = false ->
        JS.includes id "/" = false ->
        Path.basename path
        = "src-" ++ revision hashOutput ++ "-" ++ id ++ ".tar.gz")
  ∧
  (forall m : Server.Consts,
      authenticated (Server.TOKEN m) req ->
      forall pre post,
        trace (run (Server.src m req) w)
        = (pre ++ EvExec (Cmd.rev_parse (Server.GIT_REPO_PATH m))
                    (inr hashOutput) :: post)%list ->
        result (run (Server.src m req) w) = inr (Download path) ->
        JS.includes (revision hashOutput) "/" = false ->
        Path.basename path = "src-" ++ revision hashOutput ++ ".tar.gz").
Proof.
  split.
  - intros m Ha pre id post Heq Hres Hr%chars_plain Hi%chars_plain.
    rewrite (app_download_path m req w pre post hashOutput id path Ha Heq Hres).
    assert (Hm : Forall plain
                   (list_ascii_of_string
                      (revision hashOutput ++ "-" ++ id ++ ".tar.gz"))).
    { apply plain_app_chars; [assumption|].
      apply (plain_app_chars "-"); [repeat constructor|].
      apply plain_app_chars; [assumption | repeat constructor]. }
    destruct (archive_name_is_plain _ Hm) as (Hn & Hdot & Hdd & Hne).
    exact (basename_join _ _ Hn Hdot Hdd Hne).
  - intros m Ha pre post Heq Hres Hr%chars_plain.
    rewrite (server_download_path m req w pre post hashOutput path Ha Heq Hres).
    assert (Hm : Forall plain
                   (list_ascii_of_string (revision hashOutput ++ ".tar.gz")))
      by (apply plain_app_chars; [assumption | repeat constructor]).
    destruct (archive_name_is_plain _ Hm) as (Hn & Hdot & Hdd & Hne).
    exact (basename_join _ _ Hn Hdot Hdd Hne).
Qed.

(** ** The properties on concrete runs *)

(** A request with the token [wrong-token], the secret being [secret]: 401. *)
Lemma refused_iff_wrong_token_witness :
  App.TOKEN Demo.app ≠ ""
  ∧ headers Demo.bad !! "auth" ≠ Some (App.TOKEN Demo.app)
  ∧ result (run (H := Sim.host Demo.app_rules)
              (App.src Demo.app Demo.bad) Demo.app_world)
    = inr (Send 401 "Unauthorized").
Proof.
  destruct (refused_iff_wrong_token (H := Sim.host Demo.app_rules)
              Demo.bad Demo.app_world) as [Happ _].
  destruct (Happ Demo.app) as [_ Hiff].
  assert (Hne : App.TOKEN Demo.app ≠ "") by discriminate.
  assert (Hbad : headers Demo.bad !! "auth" ≠ Some (App.TOKEN Demo.app))
    by (vm_compute; discriminate).
  split; [exact Hne|]. split; [exact Hbad|].
  exact (proj2 (Hiff Hne) Hbad).
Defined.

(** A first request to [app.js] with everything in place: a download, and every call resolved. *)
Lemma download_iff_all_calls_resolved_witness :
  let o := run (H := Sim.host Demo.app_rules)
             (App.src Demo.app Demo.good) Demo.app_world in
  authenticated (App.TOKEN Demo.app) Demo.good
  ∧ result o = inr (Download Cases.archive)
  ∧ all_resolved (trace o) ∧ all_removed (trace o).
Proof.
  pose proof good_is_authenticated as Ha.
  destruct (download_iff_all_calls_resolved (H := Sim.host Demo.app_rules)
              Demo.good Demo.app_world) as [Happ _].
  split; [exact Ha|].
  assert (Hres : result (run (H := Sim.host Demo.app_rules)
                           (App.src Demo.app Demo.good) Demo.app_world)
                 = inr (Download Cases.archive))
    by (vm_compute; reflexivity).
  split; [exact Hres|].
  exact (proj1 (Happ Demo.app Ha) (ex_intro _ Cases.archive Hres)).
Defined.

(** A first request to [server.js]: the archive is not there, it is built and served. *)
Lemma missing_archive_is_built_witness :
  let o := run (H := Sim.host Race.rules)
             (Server.src Demo.server Demo.good) Race.start in
  authenticated (Server.TOKEN Demo.server) Demo.good
  ∧ trace o = ([Demo.fetched; Demo.status_seen; Demo.resolved]
               ++ Demo.missing "/repo/src-0a1b2c3.tar.gz"
               :: [EvConsole (Log "Creating tar file..."); Cases.server_build])%list
  ∧ exists pre' hashOutput r post',
      [Demo.fetched; Demo.status_seen; Demo.resolved]
      = (pre' ++ [EvExec (Cmd.rev_parse "/repo") (inr hashOutput)])%list
      ∧ "/repo/src-0a1b2c3.tar.gz"
        = Path.join "/repo" ("src-" ++ revision hashOutput ++ ".tar.gz")
      ∧ [EvConsole (Log "Creating tar file..."); Cases.server_build]
        = EvConsole (Log "Creating tar file...")
          :: EvExec (Cmd.tar_server "/repo"
                       ("src-" ++ revision hashOutput ++ ".tar.gz") "src") r
          :: post'
      ∧ (forall out, r = inr out ->
           post' = []
           ∧ result o = inr (Download "/repo/src-0a1b2c3.tar.gz")).
Proof.
  pose proof good_is_authenticated as Ha.
  assert (Heq : trace (run (H := Sim.host Race.rules)
                         (Server.src Demo.server Demo.good) Race.start)
                = ([Demo.fetched; Demo.status_seen; Demo.resolved]
                   ++ Demo.missing "/repo/src-0a1b2c3.tar.gz"
                   :: [EvConsole (Log "Creating tar file...");
                       Cases.server_build])%list)
    by (vm_compute; reflexivity).
  split; [exact Ha|]. split; [exact Heq|].
  exact (missing_archive_is_built (H := Sim.host Race.rules)
           Demo.server Demo.good Race.start Ha _ _ _ _ Heq).
Defined.

(** A request to [app.js] that finds a file of the name it made up: it removes the file, then builds. *)
Lemma stale_archive_is_removed_first_witness :
  let o := run (H := Sim.host Demo.app_rules)
             (App.src Demo.app Demo.good) Cases.stale in
  authenticated (App.TOKEN Demo.app) Demo.good
  ∧ trace o = (Cases.synchronised
               ++ EvAccess Cases.archive None
               :: [EvUnlink Cases.archive None; Cases.app_build])%list
  ∧ (exists u post',
        [EvUnlink Cases.archive None; Cases.app_build]
        = EvUnlink Cases.archive u :: post')
  ∧ (exists pre',
        (Cases.synchronised ++ [EvAccess Cases.archive None])%list
        = (pre' ++ [EvAccess Cases.archive None])%list).
Proof.
  pose proof good_is_authenticated as Ha.
  destruct (stale_archive_is_removed_first (H := Sim.host Demo.app_rules)
              Demo.app Demo.good Cases.stale Ha) as [Hcheck Hremove].
  assert (Heq : trace (run (H := Sim.host Demo.app_rules)
                         (App.src Demo.app Demo.good) Cases.stale)
                = (Cases.synchronised
                   ++ EvAccess Cases.archive None
                   :: [EvUnlink Cases.archive None; Cases.app_build])%list)
    by (vm_compute; reflexivity).
  split; [exact Ha|]. split; [exact Heq|]. split.
  - destruct (Hcheck _ _ _ _ Heq) as (u & post' & Hpost & _).
    exists u, post'. exact Hpost.
  - apply (Hremove _ Cases.archive None [Cases.app_build]).
    vm_compute. reflexivity.
Defined.

(** The download of [app.js] on the working copy at [/repo]. *)
Lemma download_is_freshly_built_witness :
  let o := run (H := Sim.host Demo.app_rules)
             (App.src Demo.app Demo.good) Demo.app_world in
  authenticated (App.TOKEN Demo.app) Demo.good
  ∧ result o = inr (Download Cases.archive)
  ∧ exists pre out hashOutput id,
      trace o = (pre ++ [EvExec
                           (Cmd.tar_app Cases.archive
                              (Path.dirname "/srv/app")
                              (Path.basename "/srv/app"))
                           (inr out)])%list
      ∧ In (EvExec (Cmd.rev_parse "/repo") (inr hashOutput)) pre
      ∧ In (EvNanoid id) pre
      ∧ Cases.archive
        = Path.join "/tmp"
            ("src-" ++ revision hashOutput ++ "-" ++ id ++ ".tar.gz").
Proof.
  pose proof good_is_authenticated as Ha.
  assert (Hres : result (run (H := Sim.host Demo.app_rules)
                           (App.src Demo.app Demo.good) Demo.app_world)
                 = inr (Download Cases.archive))
    by (vm_compute; reflexivity).
  split; [exact Ha|]. split; [exact Hres|].
  exact (download_is_freshly_built (H := Sim.host Demo.app_rules)
           Demo.app Demo.good Demo.app_world Cases.archive Ha Hres).
Defined.

(** A request to [app.js] whose build fails: 500, and the error line comes last. *)
Lemma error_line_iff_500_witness :
  let o := run (H := Sim.host Sim.git_rules)
             (App.src Demo.app Demo.good) Demo.no_tar in
  result o = inr (Send 500 "Internal Server Error")
  ∧ exists pre e, trace o = (pre ++ [logged e])%list.
Proof.
  destruct (error_line_iff_500 (H := Sim.host Sim.git_rules)
              Demo.good Demo.no_tar) as [Happ _].
  destruct (Happ Demo.app) as [_ Hiff].
  assert (Hres : result (run (H := Sim.host Sim.git_rules)
                           (App.src Demo.app Demo.good) Demo.no_tar)
                 = inr (Send 500 "Internal Server Error"))
    by (vm_compute; reflexivity).
  split; [exact Hres | exact (proj1 Hiff Hres)].
Defined.

(** [app.js] and [server.js] on the same working copy: the same git calls. *)
Lemma variants_synchronise_alike_witness :
  let w := Sim.world Race.rules Demo.env0 [] ["V1StGXR8"] in
  App.TOKEN Demo.app = Server.TOKEN Demo.server
  ∧ App.BRANCH_NAME Demo.app = Server.BRANCH_NAME Demo.server
  ∧ Demo.env0 !! "GIT_REPO_PATH" = Some (Server.GIT_REPO_PATH Demo.server)
  ∧ git_events (trace (run (H := Sim.host Race.rules)
                         (App.src Demo.app Demo.good) w))
    = git_events (trace (run (H := Sim.host Race.rules)
                           (Server.src Demo.server Demo.good) w)).
Proof.
  assert (Hrepo : Demo.env0 !! "GIT_REPO_PATH"
                  = Some (Server.GIT_REPO_PATH Demo.server))
    by (vm_compute; reflexivity).
  split; [reflexivity|]. split; [reflexivity|]. split; [exact Hrepo|].
  exact (variants_synchronise_alike (H := Sim.host Race.rules)
           Demo.app Demo.server Demo.good Demo.env0
           (sys (Sim.world Race.rules Demo.env0 [] ["V1StGXR8"]))
           eq_refl eq_refl Hrepo).
Defined.

(** The environment [Demo.env0] has the four variables: both modules load. *)
Lemma load_iff_all_set_witness :
  App.load "/tmp" Demo.env0 = Some Demo.app
  ∧ exists m, Server.load Demo.env0 = Some m.
Proof.
  destruct (load_iff_all_set "/tmp" Demo.env0) as (Happ & _ & Hsame).
  assert (Hload : App.load "/tmp" Demo.env0 = Some Demo.app).
  { apply (proj2 (Happ Demo.app)).
    split; [exists "/repo"; split; [vm_compute; reflexivity | discriminate]|].
    repeat split; try discriminate; vm_compute; reflexivity. }
  split; [exact Hload|].
  exact (proj1 Hsame (ex_intro _ Demo.app Hload)).
Defined.

(** The environment of the test suite: [app.js] loads and does not listen; HOST is unset. *)
Lemma listening_and_defaults_witness :
  Startup.app_main "/tmp" Cases.test_env = Startup.Running Demo.app None
  ∧ Cases.test_env !! "NODE_ENV" = Some "test"
  ∧ Cases.test_env !! "HOST" = None
  ∧ Startup.host Cases.test_env = "127.0.0.1".
Proof.
  destruct (listening_and_defaults "/tmp" Cases.test_env)
    as (Happ & _ & _ & _ & Hhost & _).
  assert (Hmain : Startup.app_main "/tmp" Cases.test_env
                  = Startup.Running Demo.app None)
    by (vm_compute; reflexivity).
  assert (Hunset : Cases.test_env !! "HOST" = None)
    by (vm_compute; reflexivity).
  split; [exact Hmain|].
  split; [exact (proj1 (proj1 (Happ _ _ Hmain)) eq_refl)|].
  split; [exact Hunset | exact (Hhost (or_introl Hunset))].
Defined.

(** The output of [rev-parse] with its line feed. *)
Lemma revision_ignores_surrounding_space_witness :
  all_white "" = true
  ∧ no_white "0a1b2c3d4e5f60718293a4b5c6d7e8f901234567" = true
  ∧ all_white (String "010" "") = true
  ∧ revision Sim.head = "0a1b2c3".
Proof.
  split; [reflexivity|]. split; [reflexivity|]. split; [reflexivity|].
  exact (revision_ignores_surrounding_space
           "" "0a1b2c3d4e5f60718293a4b5c6d7e8f901234567" (String "010" "")
           eq_refl eq_refl eq_refl).
Defined.

(** The folder [/srv/app] of [Demo.app]. *)
Lemma parent_and_base_name_witness :
  JS.includes "app" "/" = false
  ∧ "app" ≠ "" ∧ "/srv" ≠ "" ∧ "/srv" ≠ "/"
  ∧ Path.dirname "/srv/app" = "/srv"
  ∧ Path.basename "/srv/app" = "app".
Proof.
  assert (Hplain : JS.includes "app" "/" = false) by reflexivity.
  assert (Hne : "app" ≠ "") by discriminate.
  assert (Hd : "/srv" ≠ "") by discriminate.
  assert (Hroot : "/srv" ≠ "/") by discriminate.
  destruct (parent_and_base_name "/srv" "app" Hplain Hne)
    as (_ & _ & _ & _ & Hchild).
  destruct (Hchild Hd Hroot) as (Hdir & Hbase & _).
  split; [exact Hplain|]. split; [exact Hne|]. split; [exact Hd|].
  split; [exact Hroot|]. split; [exact Hdir | exact Hbase].
Defined.

(** [app.js] with SRC_FOLDER [src]: the build is [tar -czf ... -C . src]. *)
Lemma plain_folder_is_taken_from_cwd_witness :
  authenticated (App.TOKEN Cases.plain_app) Demo.good
  ∧ JS.includes (App.SRC_FOLDER Cases.plain_app) "/" = false
  ∧ App.SRC_FOLDER Cases.plain_app ≠ ""
  ∧ forall cmd,
      In cmd (commands
                [EvExec "tar -czf /tmp/src-0a1b2c3-V1StGXR8.tar.gz -C . src"
                   (inr "")]) ->
      cmd = "tar -czf " ++ Cases.archive ++ " -C . " ++ "src".
Proof.
  pose proof good_is_authenticated as Ha.
  assert (Hplain : JS.includes (App.SRC_FOLDER Cases.plain_app) "/" = false)
    by reflexivity.
  assert (Hne : App.SRC_FOLDER Cases.plain_app ≠ "") by discriminate.
  split; [exact Ha|]. split; [exact Hplain|]. split; [exact Hne|].
  refine (plain_folder_is_taken_from_cwd (H := Sim.host Cases.plain_rules)
            Cases.plain_app Demo.good Cases.plain_world Ha Hplain Hne
            Cases.synchronised Cases.archive _ _ _).
  vm_compute. reflexivity.
Defined.

(** The file served by [app.js] on the working copy at [/repo]. *)
Lemma download_keeps_its_name_witness :
  let o := run (H := Sim.host Demo.app_rules)
             (App.src Demo.app Demo.good) Demo.app_world in
  authenticated (App.TOKEN Demo.app) Demo.good
  ∧ trace o = ([EvGetEnv "GIT_REPO_PATH" (Some "/repo"); Demo.fetched;
                Demo.status_seen]
               ++ Demo.resolved :: EvNanoid "V1StGXR8"
               :: [Demo.missing Cases.archive; Cases.app_build])%list
  ∧ result o = inr (Download Cases.archive)
  ∧ JS.includes (revision Sim.head) "/" = false
  ∧ JS.includes "V1StGXR8" "/" = false
  ∧ Path.basename Cases.archive = "src-0a1b2c3-V1StGXR8.tar.gz".
Proof.
  pose proof good_is_authenticated as Ha.
  destruct (download_keeps_its_name (H := Sim.host Demo.app_rules)
              Demo.good Demo.app_world Sim.head Cases.archive) as [Happ _].
  assert (Heq : trace (run (H := Sim.host Demo.app_rules)
                         (App.src Demo.app Demo.good) Demo.app_world)
                = ([EvGetEnv "GIT_REPO_PATH" (Some "/repo"); Demo.fetched;
                    Demo.status_seen]
                   ++ Demo.resolved :: EvNanoid "V1StGXR8"
                   :: [Demo.missing Cases.archive; Cases.app_build])%list)
    by (vm_compute; reflexivity).
  assert (Hres : result (run (H := Sim.host Demo.app_rules)
                           (App.src Demo.app Demo.good) Demo.app_world)
                 = inr (Download Cases.archive))
    by (vm_compute; reflexivity).
  assert (Hr : JS.includes (revision Sim.head) "/" = false)
    by (vm_compute; reflexivity).
  assert (Hi : JS.includes "V1StGXR8" "/" = false) by reflexivity.
  split; [exact Ha|]. split; [exact Heq|]. split; [exact Hres|].
  split; [exact Hr|]. split; [exact Hi|].
  exact (Happ Demo.app Ha _ _ _ Heq Hres Hr Hi).
Defined.
